(** * bot-framework: the intent-resolution pipeline of [src/index.ts]

    A shallow embedding of the [ChatBot] class and of the two module-level
    functions [baseBotTextNLP] and [defaultReducer], followed by the
    properties of the pipeline.

    Conventions of the embedding:
    - a JavaScript object used as a string-keyed bag ([details], the object
      handed to [createEmptyUser]) is a [gmap string value] holding its own
      enumerable properties;
    - [null] / [undefined] in a typed position is [None];
    - a classifier confidence is a finite number, modelled as a rational
      (only comparisons are ever performed on it);
    - a settled promise is [Resolved] or [Rejected]; console logging is left
      out. *)

From Stdlib Require Import QArith Ascii String.
From stdpp Require Import gmap strings list fin_maps sorting.

Set Warnings "-register-all".

(** ** JavaScript values *)

Module JS.

Inductive value : Type :=
  | VUndefined
  | VNull
  | VBool (b : bool)
  | VNum (q : Q)
  | VStr (s : string)
  | VArr (l : list value)
  | VObj (o : gmap string value).

(** [v === undefined] *)
Definition is_undefined (v : value) : bool :=
  match v with VUndefined => true | _ => false end.

(** [o[key]] on a plain object: a missing property reads as [undefined]. *)
Definition get (o : gmap string value) (key : string) : value :=
  default VUndefined (o !! key).

(** A string-typed position that may hold [null]. *)
Definition nullable (s : option string) : value :=
  match s with Some x => VStr x | None => VNull end.

(** [s.startsWith(p)] *)
Fixpoint starts_with (p s : string) : bool :=
  match p, s with
  | EmptyString, _ => true
  | String a p', String b s' => if Ascii.eqb a b then starts_with p' s' else false
  | String _ _, EmptyString => false
  end.

Fixpoint drop_chars (n : nat) (s : string) : string :=
  match n, s with
  | S n', String _ s' => drop_chars n' s'
  | _, _ => s
  end.

(** [s.replace(pattern, replacement)] with a string pattern: the leftmost
    occurrence of [pattern] is replaced, and only that one.  (The
    replacement strings used here contain no [$] pattern.) *)
Fixpoint String_replace (pattern replacement s : string) : string :=
  if starts_with pattern s
  then replacement +:+ drop_chars (String.length pattern) s
  else match s with
       | EmptyString => EmptyString
       | String c s' => String c (String_replace pattern replacement s')
       end.

(** A settled promise. *)
Inductive Promise (A : Type) : Type :=
  | Resolved (a : A)
  | Rejected (reason : value).
Arguments Resolved {A} a.
Arguments Rejected {A} reason.

(** [Promise.map(xs, f)]: every [f x] is started, in array order; the
    result is the array of their values, in array order, or a rejection.
    The embedding has every call settle as it returns, so that the
    rejection reported is that of the leftmost call that fails.  With calls
    that settle later, bluebird reports the rejection that comes first in
    time: which reason is reported when more than one call fails is
    therefore not a property of the program, and no statement below relies
    on it. *)
Fixpoint Promise_map {A B : Type} (f : A → Promise B) (xs : list A) : Promise (list B) :=
  match xs with
  | [] => Resolved []
  | x :: xs' =>
      match f x, Promise_map f xs' with
      | Resolved b, Resolved bs => Resolved (b :: bs)
      | Rejected e, _ => Rejected e
      | Resolved _, Rejected e => Rejected e
      end
  end.

End JS.
Export JS.

(** ** The lodash functions the source calls *)

Module Lodash.

(** One source of [_.defaults]: for each key of [source],
    [if (object[key] === undefined) object[key] = source[key]]. *)
Definition assign_defaults (object source : gmap string value) : gmap string value :=
  map_fold (fun key srcValue acc =>
              if is_undefined (get acc key) then <[key := srcValue]> acc else acc)
           object source.

(** [_.defaults(object, ...sources)]: the sources are visited left to
    right; a [null] or [undefined] source has no keys.  (The iteratee guard
    of lodash looks at a third source only when the second is a number or a
    string, never when the sources are objects.) *)
Definition defaults (object : gmap string value) (sources : list (option (gmap string value)))
  : gmap string value :=
  fold_left (fun acc src => match src with
                            | Some s => assign_defaults acc s
                            | None => acc
                            end) sources object.

(** [_.defaults.apply(this, args)]: the first argument is the destination
    ([Object(undefined)] is a fresh empty object), the others the sources. *)
Definition defaults_apply (args : list (option (gmap string value))) : gmap string value :=
  match args with
  | [] => ∅
  | object :: sources => defaults (default ∅ object) sources
  end.

(** [_.compact] on an array whose entries are objects or [null]. *)
Definition compact {A : Type} (xs : list (option A)) : list A := omap id xs.

(** [_.compact] on an array whose entries are strings or [null]: the empty
    string is falsy as well. *)
Definition compact_strings (xs : list (option string)) : list string :=
  omap (fun x => match x with
                 | Some EmptyString | None => None
                 | Some s => Some s
                 end) xs.

(** An entry handed to [_.flatten]: a single value or an array. *)
Inductive item (A : Type) : Type :=
  | One (a : A)
  | Many (l : list A).
Arguments One {A} a.
Arguments Many {A} l.

(** [_.flatten]: one level deep. *)
Definition flatten {A : Type} (xs : list (item A)) : list A :=
  concat (map (fun x => match x with One a => [a] | Many l => l end) xs).

Definition Qltb (x y : Q) : bool := negb (Qle_bool y x).

(** [_.orderBy(xs, [key], 'desc')]: descending by [key]; entries with
    equal keys keep their relative order (ties are broken by index). *)
Fixpoint insert_desc {A : Type} (key : A → Q) (x : A) (sorted : list A) : list A :=
  match sorted with
  | [] => [x]
  | y :: rest => if Qltb (key x) (key y)
                 then y :: insert_desc key x rest
                 else x :: y :: rest
  end.

Definition orderBy_desc {A : Type} (key : A → Q) (xs : list A) : list A :=
  fold_right (insert_desc key) [] xs.

(** [_.startCase] on its ASCII path: apostrophes are removed, the words are
    the maximal runs of characters outside the ranges 00-2f, 3a-40, 5b-60
    and 7b-7f, each word gets its first letter in upper case and the words
    are joined by single spaces.  (lodash further splits a run at case and
    letter/digit boundaries; the properties below are proved for an
    arbitrary title-casing function and use this one for closed examples
    only.) *)
Definition is_word_char (c : ascii) : bool :=
  let n := nat_of_ascii c in
  negb ((n <=? 47) || ((58 <=? n) && (n <=? 64)) ||
        ((91 <=? n) && (n <=? 96)) || ((123 <=? n) && (n <=? 127)))%nat.

Definition flush (word : string) : list string :=
  match word with EmptyString => [] | _ => [word] end.

Fixpoint asciiWords_from (word s : string) : list string :=
  match s with
  | EmptyString => flush word
  | String c s' =>
      if is_word_char c
      then asciiWords_from (word +:+ String c EmptyString) s'
      else flush word ++ asciiWords_from EmptyString s'
  end.

Definition asciiWords (s : string) : list string := asciiWords_from EmptyString s.

Definition upper_char (c : ascii) : ascii :=
  let n := nat_of_ascii c in
  if ((97 <=? n) && (n <=? 122))%nat then ascii_of_nat (n - 32) else c.

Definition upperFirst (s : string) : string :=
  match s with
  | EmptyString => EmptyString
  | String c s' => String (upper_char c) s'
  end.

Fixpoint remove_apostrophes (s : string) : string :=
  match s with
  | EmptyString => EmptyString
  | String c s' => if Ascii.eqb c "'"%char then remove_apostrophes s'
                   else String c (remove_apostrophes s')
  end.

Definition startCase (s : string) : string :=
  match asciiWords (remove_apostrophes s) with
  | [] => EmptyString
  | word :: words =>
      fold_left (fun result w => result +:+ " " +:+ upperFirst w)
                words (upperFirst word)
  end.

End Lodash.

(** ** Data model ([Intent], [User], [Classification]) *)

(** [interface Intent]: [action] and [topic] may hold [null]; [details] is
    optional and, when present, a string-keyed bag. *)
Record Intent : Type := mkIntent {
  action : option string;
  topic : option string;
  details : option (gmap string value);
}.

(** [intent.details = d] *)
Definition set_details (i : Intent) (d : option (gmap string value)) : Intent :=
  {| action := action i; topic := topic i; details := d |}.

(** [interface User]: [conversation] is optional. *)
Record User : Type := mkUser {
  conversation : option (list string);
  state : value;
  intent : Intent;
}.

Definition set_conversation (u : User) (c : option (list string)) : User :=
  {| conversation := c; state := state u; intent := intent u |}.

(** [user.intent = i] *)
Definition set_intent (u : User) (i : Intent) : User :=
  {| conversation := conversation u; state := state u; intent := i |}.

(** An [Intent] as the plain object it is. *)
Definition Intent_object (i : Intent) : gmap string value :=
  let fields : gmap string value :=
    {[ "action" := nullable (action i); "topic" := nullable (topic i) ]} in
  match details i with
  | Some d => <["details" := VObj d]> fields
  | None => fields
  end.

(** [interface Classification] *)
Record Classification : Type := mkClassification {
  label : string;
  ctopic : string;
  cvalue : Q;
}.

(** What [classifier.getClassifications(text)[0]] holds: the best label of
    one trained classifier and its confidence. *)
Record Verdict : Type := mkVerdict {
  verdict_label : string;
  verdict_value : Q;
}.

(** A trained classifier, seen through [getClassifications(text)[0]].  A
    trained classifier lists every label it knows, so that it has a first
    entry for every text; a classifier that lists none, or one that throws,
    makes [checkUsingClassifier] throw at [result.label] and lies outside
    this embedding. *)
Definition Classifier : Type := string → Verdict.

(** [Classifiers]: topic → label → classifier, in property order. *)
Definition Classifiers : Type := list (string * list (string * Classifier)).

(** What an intent function resolves to: [null], one intent, or an array. *)
Definition Extracted : Type := Lodash.item (option Intent).

(** [interface IntentFunction], bound to the bot: it reads the bot's
    [classifiers] when called. *)
Definition IntentFunction : Type := Classifiers → string → User → Promise Extracted.

(** What a skill hands back to the dispatch loop: [null], something else, or
    a failure (an exception, or a promise that rejects). *)
Inductive SkillReturn : Type :=
  | ReturnsNull
  | ReturnsNonNull
  | Fails (reason : value).

(** [interface SkillFunction]: the skill may mutate the user it is given. *)
Definition SkillFunction : Type := User → User * SkillReturn.

(** [interface ReducerFunction] *)
Definition ReducerFunction : Type := list (option Intent) → User → Promise Intent.

(** An entry of the constructor's [classifierFiles]: a path or an inline
    topic collection. *)
Inductive ClassifierFile : Type :=
  | FilePath (path : string)
  | Topics (collection : value).

(** What [index.ts] imports from [./classifier], [./helpers] and its
    environment. *)
Record Imports : Type := mkImports {
  (** [classifier === natural.LogisticRegressionClassifier] *)
  classifier_is_LogisticRegression : bool;
  (** [GenerateClassifier]; [None] when it throws *)
  GenerateClassifier : list ClassifierFile → option Classifiers;
  (** [grabTopics] *)
  grabTopics : IntentFunction;
  (** [_.startCase] *)
  startCase : string → string;
  (** [__dirname] *)
  dirname : string;
}.

Definition defaultClassifierDirectories (env : Imports) : list ClassifierFile :=
  [FilePath (dirname env +:+ "/../nlp/phrases")].

(** ** [checkUsingClassifier], [baseBotTextNLP], [defaultReducer] *)

Definition checkUsingClassifier (text : string) (classifier : Classifier)
    (label topic : string) : option Classification :=
  let result := classifier text in
  if String.eqb (verdict_label result) "false" then None
  else Some {| label := String_replace "-" " " label;
               ctopic := topic;
               cvalue := verdict_value result |}.

(** [filtered], then [compacted] before the confidence floor: [_.flatten]
    concatenates the per-topic arrays, and the outer [_.compact] finds
    nothing left to drop in them. *)
Definition collect (classifiers : Classifiers) (text : string) : list Classification :=
  let filtered :=
    map (fun '(topic, labelled) =>
           let trueClassifications :=
             map (fun '(label, classifier) =>
                    checkUsingClassifier text classifier label topic) labelled in
           Lodash.compact trueClassifications)
        classifiers in
  concat filtered.

(** [compacted] after [if (classifier === natural.LogisticRegressionClassifier)].
    The literal [0.6] denotes the double nearest to 6/10, which lies just
    below it with no double in between: for a double, [value > 0.6] is
    [value > 6/10]. *)
Definition confidence_floor (logistic : bool) (compacted : list Classification)
    : list Classification :=
  if logistic
  then List.filter (fun result => Lodash.Qltb (6 # 10) (cvalue result)) compacted
  else compacted.

Definition is_location (c : Classification) : bool := String.eqb (ctopic c) "locations".

(** [locations] *)
Definition locations_of (title : string → string) (sorted : list Classification) : list string :=
  Lodash.compact_strings
    (map (fun intent => if is_location intent then Some (title (label intent)) else None)
         sorted).

Definition strings (xs : list string) : value := VArr (map VStr xs).

(** The body of [sorted.map(intent => ...)]. *)
Definition to_intent (locations : list string) (intent : Classification) : Intent :=
  let baseIntent :=
    {| action := Some (label intent);
       details := Some {[ "confidence" := VNum (cvalue intent);
                          "locations" := strings locations ]};
       topic := Some (ctopic intent) |} in
  if is_location intent
  then set_details baseIntent
         (Some (<["locations" := strings locations]> (default ∅ (details baseIntent))))
  else baseIntent.

(** [baseBotTextNLP]; [None] is the [null] it returns when nothing is left. *)
Definition baseBotTextNLP (env : Imports) (classifiers : Classifiers) (text : string)
    : option (list Intent) :=
  let compacted :=
    confidence_floor (classifier_is_LogisticRegression env) (collect classifiers text) in
  match compacted with
  | [] => None
  | _ =>
      let sorted := Lodash.orderBy_desc cvalue compacted in
      let locations := locations_of (startCase env) sorted in
      Some (map (to_intent locations) sorted)
  end.

(** [baseBotTextNLP.bind(this)] as an intent function. *)
Definition baseBotTextNLP_bound (env : Imports) : IntentFunction :=
  fun classifiers text _ =>
    match baseBotTextNLP env classifiers text with
    | None => Resolved (Lodash.One None)
    | Some intents => Resolved (Lodash.Many (map Some intents))
    end.

Definition unknownIntent : Intent :=
  {| action := Some "none"; topic := None; details := None |}.

Definition defaultReducer (intents : list (option Intent)) : Promise Intent :=
  let validIntents := Lodash.compact intents in
  match validIntents with
  | [] => Resolved unknownIntent
  | firstIntent :: _ =>
      let mergedDetails := Lodash.defaults_apply (map details validIntents) in
      Resolved (set_details firstIntent (Some mergedDetails))
  end.

(** [defaultReducer.bind(this)] as a reducer function. *)
Definition defaultReducer_bound : ReducerFunction := fun intents _ => defaultReducer intents.

(** ** [class ChatBot] *)

Record ChatBot : Type := mkChatBot {
  classifiers : Classifiers;
  intents : list IntentFunction;
  skills : list SkillFunction;
  reducer : ReducerFunction;
  debugOn : bool;
}.

(** [constructor]; [None] when [GenerateClassifier] throws. *)
Definition constructor (env : Imports) (classifierFiles : list ClassifierFile) : option ChatBot :=
  match GenerateClassifier env (classifierFiles ++ defaultClassifierDirectories env) with
  | Some allClassifiers =>
      Some {| classifiers := allClassifiers;
              intents := [baseBotTextNLP_bound env; grabTopics env];
              skills := [];
              reducer := defaultReducer_bound;
              debugOn := false |}
  | None => None
  end.

Definition unshiftIntent (newIntent : IntentFunction) (this : ChatBot) : ChatBot :=
  {| classifiers := classifiers this;
     intents := newIntent :: intents this;
     skills := skills this;
     reducer := reducer this;
     debugOn := debugOn this |}.

Definition unshiftSkill (newSkill : SkillFunction) (this : ChatBot) : ChatBot :=
  {| classifiers := classifiers this;
     intents := intents this;
     skills := newSkill :: skills this;
     reducer := reducer this;
     debugOn := debugOn this |}.

Definition setReducer (newReducer : ReducerFunction) (this : ChatBot) : ChatBot :=
  {| classifiers := classifiers this;
     intents := intents this;
     skills := skills this;
     reducer := newReducer;
     debugOn := debugOn this |}.

Definition turnOnDebug (this : ChatBot) : ChatBot :=
  {| classifiers := classifiers this;
     intents := intents this;
     skills := skills this;
     reducer := reducer this;
     debugOn := true |}.

(** [retrainClassifiers]: the bot after the call.  When [GenerateClassifier]
    throws, the assignment is never reached and the bot is as it was. *)
Definition retrainClassifiers (env : Imports) (classifierFiles : list ClassifierFile)
    (this : ChatBot) : ChatBot :=
  match GenerateClassifier env (classifierFiles ++ defaultClassifierDirectories env) with
  | Some allClassifiers =>
      {| classifiers := allClassifiers;
         intents := intents this;
         skills := skills this;
         reducer := reducer this;
         debugOn := debugOn this |}
  | None => this
  end.

Definition createEmptyIntent : Intent :=
  {| action := None; details := Some ∅; topic := None |}.

(** The object literal [anEmptyUser]. *)
Definition anEmptyUser : gmap string value :=
  {[ "conversation" := VArr [];
     "intent" := VObj (Intent_object createEmptyIntent);
     "state" := VStr "none" ]}.

(** [createEmptyUser]: the object [_.defaults(anEmptyUser, defaults)]. *)
Definition createEmptyUser (defaults : gmap string value) : gmap string value :=
  Lodash.defaults anEmptyUser [Some defaults].

(** The [for] loop of [processText], from index [i]: the skills invoked, in
    order, each with what it handed back, and the user they leave behind. *)
Fixpoint dispatch (skills : list SkillFunction) (i : nat) (user : User)
    : list (nat * SkillReturn) * User :=
  match skills with
  | [] => ([], user)
  | skill :: later =>
      let '(user', result) := skill user in
      match result with
      | ReturnsNull =>
          let '(events, user'') := dispatch later (S i) user' in
          ((i, result) :: events, user'')
      | _ => ([(i, result)], user')
      end
  end.

(** How the promise chain ends after the loop: a failed skill rejects it,
    anything else resolves it with the user. *)
Definition settle (walk : list (nat * SkillReturn) * User) : Promise User :=
  match last (fst walk) with
  | Some (_, Fails reason) => Rejected reason
  | _ => Resolved (snd walk)
  end.

(** [user.conversation] defaulted and extended with [text]. *)
Definition heard (user : User) (text : string) : User :=
  let user := match conversation user with
              | None => set_conversation user (Some [])
              | Some _ => user
              end in
  set_conversation user (Some (default [] (conversation user) ++ [text])).

(** The candidate list handed to the reducer. *)
Definition candidates (this : ChatBot) (user : User) (text : string)
    : Promise (list (option Intent)) :=
  match Promise_map (fun intent : IntentFunction => intent (classifiers this) text user)
                    (intents this) with
  | Resolved results => Resolved (map Some (Lodash.compact (Lodash.flatten results)))
  | Rejected reason => Rejected reason
  end.

Definition processText (this : ChatBot) (user : User) (text : string) : Promise User :=
  let user := heard user text in
  match candidates this user text with
  | Rejected reason => Rejected reason
  | Resolved found =>
      match reducer this found user with
      | Rejected reason => Rejected reason
      | Resolved intent =>
          let user := set_intent user intent in
          settle (dispatch (skills this) 0 user)
      end
  end.

(** ** Vocabulary of the statements and closed examples *)

(** A source of [_.defaults] that does not define [k], or defines it as
    [undefined]. *)
Definition silent_on (k : string) (src : option (gmap string value)) : Prop :=
  match src with
  | Some s => is_undefined (get s k) = true
  | None => True
  end.

(** Registering skills one after the other with [unshiftSkill]. *)
Definition register (newSkills : list SkillFunction) (bot : ChatBot) : ChatBot :=
  fold_left (λ this newSkill, unshiftSkill newSkill this) newSkills bot.

(** The user as the skill at index [j] of the chain receives it, when the
    skills before it have run. *)
Fixpoint handed (chain : list SkillFunction) (j : nat) (user : User) : User :=
  match j, chain with
  | S j', skill :: later => handed later j' (fst (skill user))
  | _, _ => user
  end.

(** A skill that never fails and never reassigns [user.intent]. *)
Definition inert (skill : SkillFunction) : Prop :=
  ∀ user, intent (fst (skill user)) = intent user ∧
          ∀ reason, snd (skill user) ≠ Fails reason.

Module Examples.

(** [{state: 'active'}] *)
Definition active : gmap string value := {[ "state" := VStr "active" ]}.

(** [{name: 'Ann', state: 'active'}] *)
Definition named : gmap string value :=
  {[ "name" := VStr "Ann"; "state" := VStr "active" ]}.

(** [{conversation: [], intent: emptyIntent, state: 'active'}] *)
Definition activeUser : gmap string value :=
  {[ "conversation" := VArr [];
     "intent" := VObj (Intent_object createEmptyIntent);
     "state" := VStr "active" ]}.

(** Two candidates: a greeting whose [details] are
    [{confidence: 0.9, place: undefined}], and a location whose [details]
    are [{confidence: 0.7, place: 'Paris', zone: 'eu'}]. *)
Definition greeting : Intent :=
  {| action := Some "hello"; topic := Some "greetings";
     details := Some {[ "confidence" := VNum (9 # 10); "place" := VUndefined ]} |}.

Definition paris : Intent :=
  {| action := Some "paris"; topic := Some "locations";
     details := Some {[ "confidence" := VNum (7 # 10); "place" := VStr "Paris";
                        "zone" := VStr "eu" ]} |}.

(** A classifier that always answers ['true'] with confidence 0.9, one
    that answers ['true'] with confidence 0.5, and one that answers
    ['false']. *)
Definition sure : Classifier := λ _, {| verdict_label := "true"; verdict_value := 9 # 10 |}.
Definition unsure : Classifier := λ _, {| verdict_label := "true"; verdict_value := 5 # 10 |}.
Definition no : Classifier := λ _, {| verdict_label := "false"; verdict_value := 8 # 10 |}.

(** An environment: [lr] says whether the classifier family is the
    logistic-regression one. *)
Definition env (lr : bool) : Imports :=
  {| classifier_is_LogisticRegression := lr;
     GenerateClassifier := λ _, Some [];
     grabTopics := λ _ _ _, Resolved (Lodash.One None);
     startCase := Lodash.startCase;
     dirname := "/app/dist" |}.

(** [{travel: {'book-a-flight': sure}}] *)
Definition travel : Classifiers := [("travel", [("book-a-flight", sure)])].

(** [{locations: {'': sure}}]: a location whose label is the empty string. *)
Definition unnamed : Classifiers := [("locations", [("", sure)])].

(** [{greetings: {hello: unsure, bye: no}, locations: {'new-york': sure, rome: unsure}}] *)
Definition mixed : Classifiers :=
  [("greetings", [("hello", unsure); ("bye", no)]);
   ("locations", [("new-york", sure); ("rome", unsure)])].

(** A skill that declines ([null]) and one that takes the request. *)
Definition decline : SkillFunction := λ user, (user, ReturnsNull).
Definition accept : SkillFunction := λ user, (user, ReturnsNonNull).

(** A skill that declines after tagging the user's state. *)
Definition tag : SkillFunction :=
  λ user, ({| conversation := conversation user; state := VStr "seen";
              intent := intent user |}, ReturnsNull).

(** [new ChatBot()] when [GenerateClassifier] yields an empty bank. *)
Definition bot : ChatBot :=
  {| classifiers := [];
     intents := [baseBotTextNLP_bound (env false); grabTopics (env false)];
     skills := [];
     reducer := defaultReducer_bound;
     debugOn := false |}.

(** [{state: 'none', intent: emptyIntent}], without a conversation yet. *)
Definition visitor : User :=
  {| conversation := None; state := VStr "none"; intent := createEmptyIntent |}.

End Examples.

(** [s !== ''] *)
Definition nonblank (s : string) : bool := negb (String.eqb s "").

(** Descending order of confidence. *)
Definition by_confidence (a b : Classification) : Prop := (cvalue b <= cvalue a)%Q.

(** [intent.details.confidence] and [intent.details.locations] *)
Definition confidence (i : Intent) : value := get (default ∅ (details i)) "confidence".
Definition locations (i : Intent) : value := get (default ∅ (details i)) "locations".

(** How many times the character [c] occurs in [s]. *)
Fixpoint occurrences (c : ascii) (s : string) : nat :=
  match s with
  | EmptyString => 0
  | String a s' => (if Ascii.eqb a c then 1 else 0) + occurrences c s'
  end.

(** The classification that a classifier answering something other than
    ['false'] gives rise to. *)
Definition classified (text : string) (topic name : string) (classifier : Classifier)
    : Classification :=
  {| label := String_replace "-" " " name;
     ctopic := topic;
     cvalue := verdict_value (classifier text) |}.

(** An intent produced for the classification [c]. *)
Definition renders (i : Intent) (c : Classification) : Prop :=
  action i = Some (label c) ∧ topic i = Some (ctopic c) ∧ confidence i = VNum (cvalue c).

(** A skill that never reassigns [user.conversation]. *)
Definition discreet (skill : SkillFunction) : Prop :=
  ∀ user, conversation (fst (skill user)) = conversation user.

(** A candidate holds the key [k] in its [details]. *)
Definition holds (k : string) (i : Intent) : Prop :=
  ∃ d, details i = Some d ∧ is_Some (d !! k).

Module MoreExamples.

(** An intent function of the application: it always recognises a booking. *)
Definition booking : Intent :=
  {| action := Some "book"; topic := Some "travel";
     details := Some {[ "seats" := VNum (2 # 1) ]} |}.

Definition recognise_booking : IntentFunction :=
  λ _ _ _, Resolved (Lodash.One (Some booking)).

(** An intent function that rejects. *)
Definition broken : IntentFunction := λ _ _ _, Rejected (VStr "down").

(** A candidate without [details]. *)
Definition bare : Intent := {| action := Some "ping"; topic := None; details := None |}.

(** [{greetings: {hello: sure}, locations: {rome: sure, 'new-york': sure}}] *)
Definition tied : Classifiers :=
  [("greetings", [("hello", Examples.sure)]);
   ("locations", [("rome", Examples.sure); ("new-york", Examples.sure)])].

(** A skill that takes the request after tagging the user's state. *)
Definition take : SkillFunction :=
  λ user, ({| conversation := conversation user; state := VStr "taken";
              intent := intent user |}, ReturnsNonNull).

(** An environment whose [GenerateClassifier] builds [Examples.mixed] from
    any files. *)
Definition trained : Imports :=
  {| classifier_is_LogisticRegression := false;
     GenerateClassifier := λ _, Some Examples.mixed;
     grabTopics := λ _ _ _, Resolved (Lodash.One None);
     startCase := Lodash.startCase;
     dirname := "/app/dist" |}.

End MoreExamples.

(** ** Properties of the lodash helpers *)

Section DefaultsLemmas.
Implicit Types (object source : gmap string value) (k : string).
Implicit Types (sources : list (option (gmap string value))).

(** What one source does to one key. *)
Lemma lookup_assign_defaults object source k :
  Lodash.assign_defaults object source !! k =
    if is_undefined (get object k)
    then match source !! k with Some w => Some w | None => object !! k end
    else object !! k.
Proof.
  unfold Lodash.assign_defaults.
  apply (map_fold_weak_ind (fun r (m : gmap string value) =>
     r !! k = if is_undefined (get object k)
              then match m !! k with Some w => Some w | None => object !! k end
              else object !! k)).
  - rewrite lookup_empty. by destruct (is_undefined _).
  - intros i x m r Hi IH.
    destruct (decide (i = k)) as [->|Hne].
    + rewrite lookup_insert_eq. rewrite Hi in IH.
      unfold get at 1.
      destruct (is_undefined (get object k)) eqn:E; rewrite IH;
        fold (get object k); rewrite E; [by rewrite lookup_insert_eq | done].
    + rewrite lookup_insert_ne by done.
      destruct (is_undefined (get r i)); [rewrite lookup_insert_ne by done|]; exact IH.
Qed.

Lemma get_assign_defaults_defined object source k :
  is_undefined (get object k) = false →
  Lodash.assign_defaults object source !! k = object !! k.
Proof. intros H. by rewrite lookup_assign_defaults, H. Qed.

Lemma defaults_defined sources : ∀ object k,
  is_undefined (get object k) = false →
  Lodash.defaults object sources !! k = object !! k.
Proof.
  induction sources as [|[s|] sources IH]; intros object k H; simpl; [done| |by apply IH].
  rewrite IH.
  - by apply get_assign_defaults_defined.
  - unfold get. by rewrite get_assign_defaults_defined.
Qed.

Lemma defaults_absent sources : ∀ object k,
  object !! k = None →
  Forall (λ src, ∀ s, src = Some s → s !! k = None) sources →
  Lodash.defaults object sources !! k = None.
Proof.
  induction sources as [|src sources IH]; intros object k Ho Hs; simpl; [done|].
  inversion Hs as [|? ? Hsrc Hrest]; subst.
  apply IH; [|done].
  destruct src as [s|]; [|done].
  rewrite lookup_assign_defaults. unfold get. rewrite Ho. simpl.
  by rewrite (Hsrc s eq_refl).
Qed.

Lemma defaults_first_defined pre : ∀ object k s post v,
  is_undefined (get object k) = true →
  Forall (silent_on k) pre →
  s !! k = Some v → is_undefined v = false →
  Lodash.defaults object (pre ++ Some s :: post) !! k = Some v.
Proof.
  induction pre as [|src pre IH]; intros object k s post v Ho Hpre Hs Hv; simpl.
  - rewrite defaults_defined.
    + by rewrite lookup_assign_defaults, Ho, Hs.
    + unfold get. by rewrite lookup_assign_defaults, Ho, Hs.
  - inversion Hpre as [|? ? Hsrc Hrest]; subst.
    apply IH; [|done..].
    destruct src as [s0|]; [|done].
    unfold get. rewrite lookup_assign_defaults, Ho.
    simpl in Hsrc. unfold get in Hsrc.
    destruct (s0 !! k) as [w|]; [exact Hsrc | exact Ho].
Qed.

End DefaultsLemmas.

Lemma anEmptyUser_defined (k : string) (v : value) :
  anEmptyUser !! k = Some v → is_undefined v = false.
Proof.
  unfold anEmptyUser.
  rewrite !lookup_insert, lookup_singleton.
  repeat case_decide; intros [= <-]; reflexivity.
Qed.

Lemma lookup_createEmptyUser (defaults : gmap string value) (k : string) :
  createEmptyUser defaults !! k =
    match anEmptyUser !! k with
    | Some v => Some v
    | None => defaults !! k
    end.
Proof.
  unfold createEmptyUser, Lodash.defaults. simpl.
  rewrite lookup_assign_defaults. unfold get.
  destruct (anEmptyUser !! k) as [v|] eqn:E; simpl.
  - by rewrite (anEmptyUser_defined k v E).
  - by destruct (defaults !! k).
Qed.

(** [Examples.bot] is the bot that the constructor builds. *)
Lemma constructor_example : constructor (Examples.env false) [] = Some Examples.bot.
Proof. reflexivity. Qed.

(** ** [createEmptyUser] *)

(** C1 (as amended).  [createEmptyUser(defaults)] is the base record with the
    caller's keys filled in only where the base record has none: the keys
    [conversation], [intent] and [state] always hold the base values [[]],
    the empty intent and ['none'], and every other key holds what the caller
    supplied for it. *)
Theorem C1_createEmptyUser_fills_absent_keys (defaults : gmap string value) :
  createEmptyUser defaults !! "conversation" = Some (VArr []) ∧
  createEmptyUser defaults !! "intent" = Some (VObj (Intent_object createEmptyIntent)) ∧
  createEmptyUser defaults !! "state" = Some (VStr "none") ∧
  ∀ k : string, k ≠ "conversation" → k ≠ "intent" → k ≠ "state" →
    createEmptyUser defaults !! k = defaults !! k.
Proof.
  repeat split; try (rewrite lookup_createEmptyUser; reflexivity).
  intros k H1 H2 H3. rewrite lookup_createEmptyUser.
  unfold anEmptyUser.
  by rewrite !lookup_insert_ne, lookup_singleton_ne.
Qed.

Lemma C1_createEmptyUser_fills_absent_keys_witness :
  createEmptyUser Examples.named !! "name" = Some (VStr "Ann") ∧
  createEmptyUser Examples.named !! "state" = Some (VStr "none").
Proof.
  destruct (C1_createEmptyUser_fills_absent_keys Examples.named) as (_ & _ & Hstate & Hother).
  split; [|exact Hstate].
  rewrite (Hother "name"); [reflexivity | discriminate..].
Defined.

(** C1 as stated fails: [createEmptyUser({state: 'active'})] is not
    [{conversation: [], intent: emptyIntent, state: 'active'}]; its [state]
    is ['none']. *)
Lemma C1_counterexample :
  createEmptyUser Examples.active !! "state" = Some (VStr "none") ∧
  createEmptyUser Examples.active ≠ Examples.activeUser.
Proof.
  assert (H : createEmptyUser Examples.active !! "state" = Some (VStr "none"))
    by (rewrite lookup_createEmptyUser; reflexivity).
  split; [exact H|].
  intros Heq. rewrite Heq in H. vm_compute in H. discriminate H.
Qed.

(** ** [defaultReducer] *)

Lemma defaultReducer_nonempty (intents : list (option Intent)) (winner : Intent)
    (others : list Intent) :
  Lodash.compact intents = winner :: others →
  defaultReducer intents =
    Resolved (set_details winner
                (Some (Lodash.defaults (default ∅ (details winner))
                                       (map details others)))).
Proof. unfold defaultReducer. intros ->. reflexivity. Qed.

Lemma defaultReducer_empty (intents : list (option Intent)) :
  Lodash.compact intents = [] → defaultReducer intents = Resolved unknownIntent.
Proof. unfold defaultReducer. intros ->. reflexivity. Qed.

(** C5.  On a candidate list that is not empty once its null entries are
    dropped, the default reducer resolves with the first candidate: the
    result has the first candidate's action and topic and is that candidate
    with nothing but its [details] replaced, whatever the candidates'
    [details] hold. *)
Theorem C5_defaultReducer_returns_first (intents : list (option Intent))
    (winner : Intent) (others : list Intent) :
  Lodash.compact intents = winner :: others →
  ∃ result : Intent,
    defaultReducer intents = Resolved result ∧
    action result = action winner ∧
    topic result = topic winner ∧
    result = set_details winner (details result).
Proof.
  intros H. rewrite (defaultReducer_nonempty _ _ _ H).
  eexists. split; [reflexivity|]. by repeat split.
Qed.

Lemma C5_defaultReducer_returns_first_witness :
  ∃ result : Intent,
    defaultReducer [None; Some Examples.greeting; Some Examples.paris] = Resolved result ∧
    action result = Some "hello" ∧
    topic result = Some "greetings" ∧
    result = set_details Examples.greeting (details result).
Proof.
  apply (C5_defaultReducer_returns_first
           [None; Some Examples.greeting; Some Examples.paris]
           Examples.greeting [Examples.paris]).
  reflexivity.
Defined.

(** C6 (as amended).  On a non-empty candidate list the merged [details] of
    the result keep every key that the winner's [details] hold with a value
    other than [undefined]; a key that the winner lacks or holds as
    [undefined] takes the value of the earliest lower-ranked candidate that
    holds it with a value other than [undefined]; and a key held by no
    candidate is not added. *)
Theorem C6_defaultReducer_merge (intents : list (option Intent))
    (winner : Intent) (others : list Intent) :
  Lodash.compact intents = winner :: others →
  ∃ merged : gmap string value,
    defaultReducer intents = Resolved (set_details winner (Some merged)) ∧
    (∀ k v, default ∅ (details winner) !! k = Some v → is_undefined v = false →
            merged !! k = Some v) ∧
    (∀ k earlier donor later d v,
        others = earlier ++ donor :: later →
        is_undefined (get (default ∅ (details winner)) k) = true →
        Forall (λ i, silent_on k (details i)) earlier →
        details donor = Some d → d !! k = Some v → is_undefined v = false →
        merged !! k = Some v) ∧
    (∀ k, default ∅ (details winner) !! k = None →
          Forall (λ i, ∀ d, details i = Some d → d !! k = None) others →
          merged !! k = None).
Proof.
  intros H. rewrite (defaultReducer_nonempty _ _ _ H).
  eexists. split; [reflexivity|]. repeat split.
  - intros k v Hk Hv. rewrite defaults_defined; [done|].
    unfold get. by rewrite Hk.
  - intros k earlier donor later d v -> Hw Hsilent Hd Hk Hv.
    rewrite map_app. simpl. rewrite Hd.
    apply defaults_first_defined; [done| |done..].
    by apply Forall_fmap.
  - intros k Hw Hothers. apply defaults_absent; [done|].
    by apply Forall_fmap.
Qed.

Lemma C6_defaultReducer_merge_witness :
  ∃ merged : gmap string value,
    defaultReducer [Some Examples.greeting; None; Some Examples.paris] =
      Resolved (set_details Examples.greeting (Some merged)) ∧
    merged !! "confidence" = Some (VNum (9 # 10)) ∧
    merged !! "zone" = Some (VStr "eu") ∧
    merged !! "topic" = None.
Proof.
  destruct (C6_defaultReducer_merge
              [Some Examples.greeting; None; Some Examples.paris]
              Examples.greeting [Examples.paris] eq_refl)
    as (merged & Hred & Hkeep & Hfill & Hnone).
  exists merged. split; [exact Hred|]. split; [|split].
  - apply Hkeep; reflexivity.
  - eapply (Hfill "zone" [] Examples.paris []);
      [reflexivity | reflexivity | constructor | reflexivity | reflexivity | reflexivity].
  - apply Hnone; [reflexivity|].
    constructor; [|constructor]. intros d [= <-]. reflexivity.
Defined.

(** C6 as stated fails: the winner's [details] hold the key [place] (with
    the value [undefined]) and the merge replaces it by the value of a
    lower-ranked candidate. *)
Lemma C6_counterexample :
  ∃ (k : string) (v : value) (result : Intent) (merged : gmap string value),
    default ∅ (details Examples.greeting) !! k = Some v ∧
    defaultReducer [Some Examples.greeting; Some Examples.paris] = Resolved result ∧
    details result = Some merged ∧
    merged !! k = Some (VStr "Paris") ∧
    merged !! k ≠ Some v.
Proof.
  exists "place", VUndefined. eexists. eexists.
  split; [reflexivity|]. split; [reflexivity|]. split; [reflexivity|].
  split; [reflexivity|]. vm_compute. discriminate.
Qed.

(** ** [_.orderBy] *)

Section OrderBy.
Context {A : Type} (key : A → Q).

Lemma insert_desc_Permutation (x : A) (l : list A) :
  Lodash.insert_desc key x l ≡ₚ x :: l.
Proof.
  induction l as [|y l IH]; simpl; [done|].
  destruct (Lodash.Qltb (key x) (key y)); [|done].
  rewrite IH. apply Permutation_swap.
Qed.

Lemma orderBy_desc_Permutation (l : list A) : Lodash.orderBy_desc key l ≡ₚ l.
Proof.
  induction l as [|x l IH]; simpl; [done|].
  by rewrite insert_desc_Permutation, IH.
Qed.

Lemma Qltb_true (x y : Q) : Lodash.Qltb x y = true → (x <= y)%Q.
Proof.
  unfold Lodash.Qltb. intros H. apply negb_true_iff in H.
  apply Qlt_le_weak, Qnot_le_lt. intros Hle.
  apply Qle_bool_iff in Hle. congruence.
Qed.

Lemma Qltb_false (x y : Q) : Lodash.Qltb x y = false → (y <= x)%Q.
Proof.
  unfold Lodash.Qltb. intros H. apply negb_false_iff in H.
  by apply Qle_bool_iff.
Qed.

Lemma insert_desc_sorted (x : A) (l : list A) :
  StronglySorted (λ a b, (key b <= key a)%Q) l →
  StronglySorted (λ a b, (key b <= key a)%Q) (Lodash.insert_desc key x l).
Proof.
  induction 1 as [|y l Hl IH Hy]; simpl.
  - repeat constructor.
  - destruct (Lodash.Qltb (key x) (key y)) eqn:E.
    + constructor; [exact IH|].
      rewrite insert_desc_Permutation. constructor; [|exact Hy].
      by apply Qltb_true.
    + apply Qltb_false in E.
      constructor; [by constructor|].
      constructor; [exact E|].
      eapply Forall_impl; [exact Hy|].
      intros z Hz. simpl in *. by eapply Qle_trans.
Qed.

Lemma orderBy_desc_sorted (l : list A) :
  StronglySorted (λ a b, (key b <= key a)%Q) (Lodash.orderBy_desc key l).
Proof.
  induction l as [|x l IH]; simpl; [constructor|].
  by apply insert_desc_sorted.
Qed.

(** The sort is stable: it commutes with the selection of a sublist, so
    that entries of equal key keep their relative order. *)
Lemma insert_desc_filter (f : A → bool) (x : A) (l : list A) :
  StronglySorted (λ a b, (key b <= key a)%Q) l →
  List.filter f (Lodash.insert_desc key x l) =
    if f x then Lodash.insert_desc key x (List.filter f l) else List.filter f l.
Proof.
  induction 1 as [|y l Hl IH Hy]; simpl.
  - by destruct (f x).
  - destruct (Lodash.Qltb (key x) (key y)) eqn:E; simpl.
    + rewrite IH. destruct (f y), (f x); simpl; by rewrite ?E.
    + destruct (f x) eqn:Hx; simpl; [|done].
      destruct (f y); simpl; [by rewrite E|].
      apply Qltb_false in E.
      destruct (List.filter f l) as [|z l'] eqn:Hf; simpl; [done|].
      assert (Hz : In z l).
      { eapply (proj1 (filter_In f z l)). rewrite Hf. by left. }
      assert (Hzy : (key z <= key y)%Q).
      { rewrite List.Forall_forall in Hy. by apply Hy. }
      assert (Hzx : Lodash.Qltb (key x) (key z) = false).
      { unfold Lodash.Qltb. apply negb_false_iff, Qle_bool_iff. by eapply Qle_trans. }
      by rewrite Hzx.
Qed.

Lemma orderBy_desc_filter (f : A → bool) (l : list A) :
  List.filter f (Lodash.orderBy_desc key l) = Lodash.orderBy_desc key (List.filter f l).
Proof.
  induction l as [|x l IH]; simpl; [done|].
  rewrite insert_desc_filter by apply orderBy_desc_sorted.
  destruct (f x); simpl; by rewrite IH.
Qed.

End OrderBy.

Lemma filter_Permutation {A : Type} (f : A → bool) (l l' : list A) :
  l ≡ₚ l' → List.filter f l ≡ₚ List.filter f l'.
Proof.
  induction 1 as [|x l l' _ IH|x y l|l l' l'' _ IH1 _ IH2]; simpl.
  - done.
  - destruct (f x); by rewrite IH.
  - destruct (f x), (f y); try done. apply Permutation_swap.
  - by rewrite IH1.
Qed.

Lemma filter_StronglySorted {A : Type} (R : A → A → Prop) (f : A → bool) (l : list A) :
  StronglySorted R l → StronglySorted R (List.filter f l).
Proof.
  induction 1 as [|x l Hl IH Hx]; simpl; [constructor|].
  destruct (f x); [|exact IH].
  constructor; [exact IH|].
  apply List.Forall_forall. intros y Hy.
  apply filter_In in Hy as [Hy _].
  revert y Hy. by apply List.Forall_forall.
Qed.

(** ** [baseBotTextNLP] *)

Lemma to_intent_fields (found : list string) (c : Classification) :
  action (to_intent found c) = Some (label c) ∧
  topic (to_intent found c) = Some (ctopic c) ∧
  confidence (to_intent found c) = VNum (cvalue c) ∧
  locations (to_intent found c) = strings found.
Proof.
  unfold to_intent, confidence, locations.
  destruct (is_location c); simpl; repeat split; unfold get;
    by simplify_map_eq.
Qed.

(** [locations] holds the title-cased labels of the location entries of
    [sorted], in the order of [sorted], without the empty strings. *)
Lemma locations_of_filter (title : string → string) (sorted : list Classification) :
  locations_of title sorted =
    List.filter nonblank (map (λ c, title (label c)) (List.filter is_location sorted)).
Proof.
  induction sorted as [|c sorted IH]; [done|].
  unfold locations_of, Lodash.compact_strings in *. simpl.
  destruct (is_location c); simpl; [|exact IH].
  destruct (title (label c)); simpl; [exact IH | by f_equal].
Qed.

Lemma baseBotTextNLP_some (env : Imports) (classifiers : Classifiers) (text : string)
    (intents : list Intent) :
  baseBotTextNLP env classifiers text = Some intents →
  let sorted := Lodash.orderBy_desc cvalue
                  (confidence_floor (classifier_is_LogisticRegression env)
                                    (collect classifiers text)) in
  intents = map (to_intent (locations_of (startCase env) sorted)) sorted.
Proof.
  unfold baseBotTextNLP.
  destruct (confidence_floor _ _) eqn:E; [discriminate|].
  intros [= <-]. reflexivity.
Qed.

(** C3.  The action of a produced intent is the label with its first hyphen
    replaced by a space, and only the first: the label [book-a-flight]
    gives the action [book a-flight], which still contains a hyphen. *)
Theorem C3_only_first_hyphen_replaced :
  String_replace "-" " " "book-a-flight" = "book a-flight" ∧
  ∃ i : Intent,
    baseBotTextNLP (Examples.env false) Examples.travel "fly me to Rome" = Some [i] ∧
    action i = Some "book a-flight".
Proof. split; [reflexivity|]. eexists. split; reflexivity. Qed.

(** C4.  When the classifier family is the logistic-regression one, every
    intent the built-in extractor produces stems from a collected
    classification whose value exceeds 0.6 and shows that value as its
    confidence, exactly the collected classifications above 0.6 survive, and
    when every collected classification has a value of at most 0.6 the
    extractor returns null. *)
Theorem C4_logistic_confidence_floor (env : Imports) (classifiers : Classifiers)
    (text : string) :
  classifier_is_LogisticRegression env = true →
  (∀ intents : list Intent,
      baseBotTextNLP env classifiers text = Some intents →
      length intents =
        length (List.filter (λ c, Lodash.Qltb (6 # 10) (cvalue c)) (collect classifiers text)) ∧
      Forall (λ i, ∃ c : Classification,
                 In c (collect classifiers text) ∧
                 (6 # 10 < cvalue c)%Q ∧
                 action i = Some (label c) ∧
                 topic i = Some (ctopic c) ∧
                 confidence i = VNum (cvalue c)) intents) ∧
  (Forall (λ c, (cvalue c <= 6 # 10)%Q) (collect classifiers text) →
   baseBotTextNLP env classifiers text = None).
Proof.
  intros Hlr. split.
  - intros intents H. apply baseBotTextNLP_some in H. simpl in H.
    rewrite Hlr in H. simpl in H. subst intents. split.
    + by rewrite length_map, orderBy_desc_Permutation.
    + apply Forall_fmap, List.Forall_forall. intros c Hc.
      apply (Permutation_in _ (orderBy_desc_Permutation cvalue _)) in Hc.
      apply filter_In in Hc as [Hin Hgt].
      exists c. destruct (to_intent_fields
        (locations_of (startCase env)
           (Lodash.orderBy_desc cvalue
              (List.filter (λ c, Lodash.Qltb (6 # 10) (cvalue c))
                 (collect classifiers text)))) c) as (Ha & Ht & Hc' & _).
      repeat split; try done.
      unfold Lodash.Qltb in Hgt. apply negb_true_iff in Hgt.
      apply Qnot_le_lt. intros Hle. apply Qle_bool_iff in Hle. congruence.
  - intros Hall. unfold baseBotTextNLP. rewrite Hlr. simpl.
    replace (List.filter _ _) with (@nil Classification); [done|].
    symmetry. induction Hall as [|c l Hc _ IH]; simpl; [done|].
    unfold Lodash.Qltb at 1. apply Qle_bool_iff in Hc. by rewrite Hc.
Qed.

Lemma C4_logistic_confidence_floor_witness :
  (∀ intents : list Intent,
      baseBotTextNLP (Examples.env true) Examples.mixed "hello from new york" = Some intents →
      length intents = 1 ∧
      Forall (λ i, ∃ c : Classification,
                 In c (collect Examples.mixed "hello from new york") ∧
                 (6 # 10 < cvalue c)%Q ∧
                 action i = Some (label c) ∧
                 topic i = Some (ctopic c) ∧
                 confidence i = VNum (cvalue c)) intents) ∧
  baseBotTextNLP (Examples.env true) [("greetings", [("hello", Examples.unsure)])] "hello" = None.
Proof.
  split.
  - apply (C4_logistic_confidence_floor (Examples.env true) Examples.mixed
             "hello from new york" eq_refl).
  - apply (C4_logistic_confidence_floor (Examples.env true)
             [("greetings", [("hello", Examples.unsure)])] "hello" eq_refl).
    repeat constructor. vm_compute. discriminate.
Defined.

(** C7 (as amended).  All the intents of one extraction round carry the same
    [details.locations], whatever their own topic: the title-cased labels of
    the surviving classifications whose topic is [locations], in descending
    order of confidence, leaving out the labels whose title-cased form is the
    empty string. *)
Theorem C7_locations_shared (env : Imports) (classifiers : Classifiers) (text : string)
    (intents : list Intent) :
  baseBotTextNLP env classifiers text = Some intents →
  ∃ located : list Classification,
    located ≡ₚ List.filter is_location
                 (confidence_floor (classifier_is_LogisticRegression env)
                                   (collect classifiers text)) ∧
    StronglySorted by_confidence located ∧
    Forall (λ i, locations i =
                 strings (List.filter nonblank
                            (map (λ c, startCase env (label c)) located)))
           intents.
Proof.
  intros H. apply baseBotTextNLP_some in H. simpl in H.
  set (sorted := Lodash.orderBy_desc cvalue _) in H.
  exists (List.filter is_location sorted). split; [|split].
  - apply filter_Permutation, orderBy_desc_Permutation.
  - apply filter_StronglySorted, orderBy_desc_sorted.
  - subst intents. apply Forall_fmap, List.Forall_forall. intros c _. simpl.
    rewrite <- locations_of_filter.
    apply (to_intent_fields (locations_of (startCase env) sorted) c).
Qed.

Lemma C7_locations_shared_witness :
  ∃ located : list Classification,
    located ≡ₚ List.filter is_location (collect Examples.mixed "hello from new york") ∧
    StronglySorted by_confidence located ∧
    Forall (λ i, locations i =
                 strings (List.filter nonblank
                            (map (λ c, Lodash.startCase (label c)) located)))
           (map (to_intent ["New York"; "Rome"])
                (Lodash.orderBy_desc cvalue (collect Examples.mixed "hello from new york"))).
Proof.
  apply (C7_locations_shared (Examples.env false) Examples.mixed "hello from new york").
  reflexivity.
Defined.

(** C7 as stated fails: a location whose label title-cases to the empty
    string is classified, yet the produced intent's [details.locations] is
    the empty list, not the list holding that title-cased label. *)
Lemma C7_counterexample :
  ∃ (c : Classification) (i : Intent),
    collect Examples.unnamed "where" = [c] ∧
    is_location c = true ∧
    baseBotTextNLP (Examples.env false) Examples.unnamed "where" = Some [i] ∧
    locations i = strings [] ∧
    locations i ≠ strings (map (λ c, Lodash.startCase (label c)) [c]).
Proof.
  eexists. eexists.
  split; [reflexivity|]. split; [reflexivity|]. split; [reflexivity|].
  split; [reflexivity|]. vm_compute. discriminate.
Qed.

(** ** The skill chain *)

Lemma skills_register (newSkills : list SkillFunction) : ∀ bot : ChatBot,
  skills (register newSkills bot) = rev newSkills ++ skills bot.
Proof.
  unfold register.
  induction newSkills as [|s newSkills IH]; intros bot; simpl; [done|].
  rewrite IH. simpl. by rewrite <- app_assoc.
Qed.

(** The [j]-th invocation is that of the skill at index [j], on the user left
    by the skills before it. *)
Lemma dispatch_lookup (chain : list SkillFunction) : ∀ (i : nat) (user : User) (j : nat)
    (e : nat * SkillReturn),
  fst (dispatch chain i user) !! j = Some e →
  ∃ skill, chain !! j = Some skill ∧ e = (i + j, snd (skill (handed chain j user))).
Proof.
  induction chain as [|skill later IH]; intros i user j e; simpl; [done|].
  destruct (skill user) as [user' result] eqn:Hs.
  assert (Hhead : j = 0 → e = (i, result) →
                  ∃ sk, (skill :: later) !! j = Some sk ∧
                        e = (i + j, snd (sk (handed (skill :: later) j user)))).
  { intros -> ->. exists skill. simpl. rewrite Hs. simpl. by rewrite Nat.add_0_r. }
  destruct result;
    try (destruct j as [|j]; simpl; [intros [= <-]; by apply Hhead | done]).
  destruct (dispatch later (S i) user') as [events user''] eqn:Hd. simpl.
  destruct j as [|j]; simpl.
  - intros [= <-]. by apply Hhead.
  - intros He. specialize (IH (S i) user' j e). rewrite Hd in IH.
    destruct (IH He) as (sk & Hsk & ->).
    exists sk. split; [done|]. simpl. f_equal. lia.
Qed.

(** An invocation that hands back something other than [null] is the last. *)
Lemma dispatch_stops (chain : list SkillFunction) : ∀ (i : nat) (user : User) (j : nat)
    (e : nat * SkillReturn),
  fst (dispatch chain i user) !! j = Some e →
  snd e ≠ ReturnsNull →
  length (fst (dispatch chain i user)) = S j.
Proof.
  induction chain as [|skill later IH]; intros i user j e; simpl; [done|].
  destruct (skill user) as [user' result] eqn:Hs.
  destruct result;
    try (destruct j as [|j]; simpl; [done | done]).
  destruct (dispatch later (S i) user') as [events user''] eqn:Hd. simpl.
  destruct j as [|j]; simpl.
  - by intros [= <-].
  - intros He Hne. f_equal. specialize (IH (S i) user' j e). rewrite Hd in IH.
    by apply IH.
Qed.

(** The walk ends before the end of the chain only on such an invocation. *)
Lemma dispatch_short (chain : list SkillFunction) : ∀ (i : nat) (user : User),
  length (fst (dispatch chain i user)) < length chain →
  ∃ e, last (fst (dispatch chain i user)) = Some e ∧ snd e ≠ ReturnsNull.
Proof.
  induction chain as [|skill later IH]; intros i user; simpl; [lia|].
  destruct (skill user) as [user' result] eqn:Hs.
  destruct result; try (intros _; eexists; split; [reflexivity | done]).
  specialize (IH (S i) user').
  destruct (dispatch later (S i) user') as [events user''] eqn:Hd. simpl in *.
  intros Hlt. destruct IH as (e & Hlast & Hne); [lia|].
  exists e. split; [|done].
  destruct events as [|e' events]; [done|]. exact Hlast.
Qed.

Lemma dispatch_length (chain : list SkillFunction) : ∀ (i : nat) (user : User),
  length (fst (dispatch chain i user)) ≤ length chain.
Proof.
  induction chain as [|skill later IH]; intros i user; simpl; [done|].
  destruct (skill user) as [user' result].
  destruct result; simpl; try lia.
  specialize (IH (S i) user').
  destruct (dispatch later (S i) user') as [events user'']. simpl in *. lia.
Qed.

Lemma dispatch_indices (chain : list SkillFunction) (i : nat) (user : User) :
  map fst (fst (dispatch chain i user)) = seq i (length (fst (dispatch chain i user))).
Proof.
  apply list_eq. intros j.
  rewrite list_lookup_fmap.
  destruct (fst (dispatch chain i user) !! j) as [e|] eqn:He; simpl.
  - destruct (dispatch_lookup _ _ _ _ _ He) as (sk & _ & ->). simpl.
    symmetry. apply lookup_seq. split; [done|].
    by apply lookup_lt_Some in He.
  - symmetry. apply lookup_seq_ge. by apply lookup_ge_None in He.
Qed.

(** C2.  For every skill chain and every user, the walk of [processText]
    invokes the skills in the order of the chain, each at most once and each
    on the user left by those before it, and stops at the first skill whose
    result is not null: no skill behind it in the chain is invoked; and when
    every result is null, every skill of the chain is invoked exactly
    once. *)
Theorem C2_dispatch_in_chain_order (chain : list SkillFunction) (user : User) :
  let events := fst (dispatch chain 0 user) in
  map fst events = seq 0 (length events) ∧
  length events ≤ length chain ∧
  (∀ j e, events !! j = Some e →
     ∃ skill, chain !! j = Some skill ∧ e = (j, snd (skill (handed chain j user)))) ∧
  (∀ j e, events !! j = Some e → snd e ≠ ReturnsNull → length events = S j) ∧
  (∀ j e k, events !! j = Some e → snd e ≠ ReturnsNull → j < k →
     k ∉ map fst events) ∧
  (length events < length chain →
     ∃ e, last events = Some e ∧ snd e ≠ ReturnsNull) ∧
  (Forall (λ e, snd e = ReturnsNull) events → map fst events = seq 0 (length chain)).
Proof.
  intros events.
  split; [apply dispatch_indices|]. split; [apply dispatch_length|].
  split; [|split; [|split; [|split]]].
  - intros j e He. by apply (dispatch_lookup chain 0 user j e).
  - apply dispatch_stops.
  - intros j e k He Hne Hjk Hk. unfold events in *.
    rewrite dispatch_indices, (dispatch_stops chain 0 user j e He Hne) in Hk.
    apply elem_of_seq in Hk. lia.
  - apply dispatch_short.
  - intros Hnull. unfold events. rewrite dispatch_indices. f_equal.
    pose proof (dispatch_length chain 0 user) as Hle.
    destruct (decide (length (fst (dispatch chain 0 user)) < length chain)) as [Hlt|]; [|lia].
    destruct (dispatch_short chain 0 user Hlt) as (e & Hlast & Hne).
    exfalso. apply Hne.
    rewrite last_lookup in Hlast. apply list_elem_of_lookup_2 in Hlast.
    rewrite Forall_forall in Hnull. by apply Hnull.
Qed.

Lemma C2_dispatch_in_chain_order_witness :
  (3 ∉ map fst (fst (dispatch [Examples.decline; Examples.tag; Examples.accept; Examples.tag]
                              0 Examples.visitor))) ∧
  map fst (fst (dispatch [Examples.tag; Examples.decline] 0 Examples.visitor)) = [0; 1].
Proof.
  split.
  - destruct (C2_dispatch_in_chain_order
                [Examples.decline; Examples.tag; Examples.accept; Examples.tag]
                Examples.visitor) as (_ & _ & _ & _ & Hbehind & _).
    apply (Hbehind 2 (2, ReturnsNonNull) 3); [reflexivity | discriminate | lia].
  - apply (C2_dispatch_in_chain_order [Examples.tag; Examples.decline] Examples.visitor).
    repeat constructor.
Defined.

(** ** [processText] when nothing was recognised *)

(** Inert skills let the promise resolve and leave [user.intent] alone. *)
Lemma dispatch_inert (chain : list SkillFunction) :
  Forall inert chain →
  ∀ (i : nat) (user : User),
    settle (dispatch chain i user) = Resolved (snd (dispatch chain i user)) ∧
    intent (snd (dispatch chain i user)) = intent user.
Proof.
  induction 1 as [|skill later Hskill _ IH]; intros i user; simpl; [done|].
  destruct (Hskill user) as [Hintent Hfails].
  destruct (skill user) as [user' result]. simpl in *.
  destruct result as [| |reason]; [|done|by destruct (Hfails reason)].
  destruct (IH (S i) user') as [Hsettle Hkeep].
  destruct (dispatch later (S i) user') as [events user''] eqn:Hd. simpl in *.
  split; [|congruence].
  unfold settle in *. simpl in *.
  destruct events as [|e events]; [done|]. exact Hsettle.
Qed.

(** Once the reducer has resolved, [processText] is the walk of the skill
    chain on the user carrying the reduced intent. *)
Lemma processText_walk (this : ChatBot) (user : User) (text : string)
    (found : list (option Intent)) (decided : Intent) :
  candidates this (heard user text) text = Resolved found →
  reducer this found (heard user text) = Resolved decided →
  processText this user text =
    settle (dispatch (skills this) 0 (set_intent (heard user text) decided)).
Proof. intros Hfound Hred. unfold processText. by rewrite Hfound, Hred. Qed.

(** With the default reducer and no candidate, [processText] hands the user,
    carrying the unknown intent, to the skill chain. *)
Lemma processText_no_candidates (this : ChatBot) (user : User) (text : string)
    (found : list (option Intent)) :
  reducer this = defaultReducer_bound →
  candidates this (heard user text) text = Resolved found →
  Lodash.compact found = [] →
  processText this user text =
    settle (dispatch (skills this) 0 (set_intent (heard user text) unknownIntent)).
Proof.
  intros Hred Hfound Hnone. apply (processText_walk _ _ _ found); [done|].
  rewrite Hred. by apply defaultReducer_empty.
Qed.

(** C8.  When the default reducer receives a candidate list that is empty
    once its null entries are dropped, it resolves (it does not reject) with
    the unknown intent, whose action is ['none'] and whose topic is null;
    [processText] assigns that intent to [user.intent] and goes on to the
    skill chain, and it resolves with [user.intent] equal to the unknown
    intent whenever the registered skills (a new bot has none) neither fail
    nor reassign [user.intent]. *)
Theorem C8_no_candidates_unknown_intent (this : ChatBot) (user : User) (text : string)
    (found : list (option Intent)) :
  reducer this = defaultReducer_bound →
  candidates this (heard user text) text = Resolved found →
  Lodash.compact found = [] →
  reducer this found (heard user text) = Resolved unknownIntent ∧
  action unknownIntent = Some "none" ∧
  topic unknownIntent = None ∧
  processText this user text =
    settle (dispatch (skills this) 0 (set_intent (heard user text) unknownIntent)) ∧
  (Forall inert (skills this) →
   ∃ user', processText this user text = Resolved user' ∧ intent user' = unknownIntent).
Proof.
  intros Hred Hfound Hnone.
  pose proof (processText_no_candidates this user text found Hred Hfound Hnone) as Hrun.
  split; [|split; [done|split; [done|split; [exact Hrun|]]]].
  - rewrite Hred. by apply defaultReducer_empty.
  - intros Hinert.
    destruct (dispatch_inert _ Hinert 0 (set_intent (heard user text) unknownIntent))
      as [Hsettle Hkeep].
    eexists. split; [by rewrite Hrun, Hsettle | exact Hkeep].
Qed.

Lemma C8_no_candidates_unknown_intent_witness :
  ∃ user', processText Examples.bot Examples.visitor "hm" = Resolved user' ∧
           intent user' = unknownIntent.
Proof.
  apply (C8_no_candidates_unknown_intent Examples.bot Examples.visitor "hm" []);
    [reflexivity | reflexivity | reflexivity | constructor].
Defined.

(** C9.  [retrainClassifiers] leaves the registered intent functions, the
    skills, the reducer and the debug flag as they were; what it reassigns
    is [classifiers], to the bank that [GenerateClassifier] builds from the
    given files and the default directory. *)
Theorem C9_retrainClassifiers_frame (env : Imports) (classifierFiles : list ClassifierFile)
    (this : ChatBot) :
  intents (retrainClassifiers env classifierFiles this) = intents this ∧
  skills (retrainClassifiers env classifierFiles this) = skills this ∧
  reducer (retrainClassifiers env classifierFiles this) = reducer this ∧
  debugOn (retrainClassifiers env classifierFiles this) = debugOn this ∧
  (∀ bank, GenerateClassifier env (classifierFiles ++ defaultClassifierDirectories env)
             = Some bank →
           classifiers (retrainClassifiers env classifierFiles this) = bank).
Proof.
  unfold retrainClassifiers.
  destruct (GenerateClassifier env _) as [bank|]; simpl; repeat split; try done.
  by intros ? [= <-].
Qed.

Lemma C9_retrainClassifiers_frame_witness :
  classifiers (retrainClassifiers (Examples.env true) [FilePath "phrases"]
                 (unshiftSkill Examples.accept (turnOnDebug Examples.bot))) = [].
Proof.
  apply (C9_retrainClassifiers_frame (Examples.env true) [FilePath "phrases"]
           (unshiftSkill Examples.accept (turnOnDebug Examples.bot))).
  reflexivity.
Defined.

(** C10.  The unknown intent that the default reducer returns on an empty
    candidate list has no [details] at all, whereas the intent of
    [createEmptyIntent] has the empty map as its [details]; so after a
    [processText] call that found no candidate, [user.intent.details] is
    undefined (the registered skills, none on a new bot, neither failing nor
    reassigning [user.intent]). *)
Theorem C10_unknown_intent_has_no_details (this : ChatBot) (user : User) (text : string)
    (found : list (option Intent)) :
  reducer this = defaultReducer_bound →
  candidates this (heard user text) text = Resolved found →
  Lodash.compact found = [] →
  (∃ sentinel, defaultReducer found = Resolved sentinel ∧
               details sentinel = None ∧
               Intent_object sentinel !! "details" = None) ∧
  details createEmptyIntent = Some ∅ ∧
  Intent_object createEmptyIntent !! "details" = Some (VObj ∅) ∧
  (Forall inert (skills this) →
   ∃ user', processText this user text = Resolved user' ∧
            details (intent user') = None).
Proof.
  intros Hred Hfound Hnone. split; [|split; [done|split; [done|]]].
  - exists unknownIntent. split; [by apply defaultReducer_empty | done].
  - intros Hinert.
    destruct (dispatch_inert _ Hinert 0 (set_intent (heard user text) unknownIntent))
      as [Hsettle Hkeep].
    eexists. split.
    + by rewrite (processText_no_candidates this user text found Hred Hfound Hnone), Hsettle.
    + by rewrite Hkeep.
Qed.

Lemma C10_unknown_intent_has_no_details_witness :
  ∃ user', processText (unshiftSkill Examples.tag Examples.bot) Examples.visitor "hm"
             = Resolved user' ∧
           details (intent user') = None.
Proof.
  apply (C10_unknown_intent_has_no_details
           (unshiftSkill Examples.tag Examples.bot) Examples.visitor "hm" []);
    [reflexivity | reflexivity | reflexivity |].
  constructor; [|constructor].
  intros user'. split; [reflexivity | discriminate].
Defined.

(** ** Further properties: [checkUsingClassifier] and the collection step *)

Lemma String_replace_char (a b : ascii) (s : string) :
  String_replace (String a EmptyString) (String b EmptyString) s =
    match s with
    | EmptyString => EmptyString
    | String c s' =>
        if Ascii.eqb a c then String b s'
        else String c (String_replace (String a EmptyString) (String b EmptyString) s')
    end.
Proof. destruct s as [|c s']; simpl; [done|]. by destruct (Ascii.eqb a c). Qed.

Lemma String_replace_char_absent (a b : ascii) (s : string) :
  occurrences a s = 0 →
  String_replace (String a EmptyString) (String b EmptyString) s = s.
Proof.
  induction s as [|c s IH]; rewrite String_replace_char; [done|].
  simpl. rewrite (Ascii.eqb_sym a c).
  destruct (Ascii.eqb c a); [done|]. intros H. by rewrite IH.
Qed.

Lemma String_replace_char_length (a b : ascii) (s : string) :
  String.length (String_replace (String a EmptyString) (String b EmptyString) s)
  = String.length s.
Proof.
  induction s as [|c s IH]; rewrite String_replace_char; [done|].
  destruct (Ascii.eqb a c); simpl; by rewrite ?IH.
Qed.

Lemma String_replace_char_occurrences (a b : ascii) (s : string) :
  a ≠ b →
  occurrences a (String_replace (String a EmptyString) (String b EmptyString) s)
  = pred (occurrences a s).
Proof.
  intros Hab. induction s as [|c s IH]; rewrite String_replace_char; [done|].
  simpl. rewrite (Ascii.eqb_sym c a).
  destruct (Ascii.eqb a c) eqn:E; simpl.
  - apply Ascii.eqb_neq in Hab. by rewrite (Ascii.eqb_sym b a), Hab.
  - rewrite (Ascii.eqb_sym c a), E. exact IH.
Qed.

Lemma checkUsingClassifier_some (text : string) (classifier : Classifier)
    (name topic : string) (c : Classification) :
  checkUsingClassifier text classifier name topic = Some c ↔
  verdict_label (classifier text) ≠ "false" ∧ c = classified text topic name classifier.
Proof.
  unfold checkUsingClassifier, classified.
  destruct (String.eqb _ "false") eqn:E.
  - apply String.eqb_eq in E. split; [done|]. by intros [? _].
  - apply String.eqb_neq in E. split; [by intros [= <-] | by intros [_ ->]].
Qed.

(** X1.  A classification keeps the topic it was asked under and the
    confidence the classifier reported; its label has the length of the
    classifier's label, is that label unchanged when it holds no hyphen, and
    otherwise holds exactly one hyphen less. *)
Theorem X1_classification_fields (text : string) (classifier : Classifier)
    (name topic : string) (c : Classification) :
  checkUsingClassifier text classifier name topic = Some c →
  ctopic c = topic ∧
  cvalue c = verdict_value (classifier text) ∧
  String.length (label c) = String.length name ∧
  (occurrences "-" name = 0 → label c = name) ∧
  occurrences "-" (label c) = pred (occurrences "-" name).
Proof.
  intros H. apply checkUsingClassifier_some in H as [_ ->]. simpl.
  split; [done|]. split; [done|]. split; [apply String_replace_char_length|].
  split; [apply String_replace_char_absent|].
  by apply String_replace_char_occurrences.
Qed.

Lemma X1_classification_fields_witness :
  ctopic (classified "go" "locations" "new-york-city" Examples.sure) = "locations" ∧
  cvalue (classified "go" "locations" "new-york-city" Examples.sure) = 9 # 10 ∧
  String.length (label (classified "go" "locations" "new-york-city" Examples.sure)) = 13 ∧
  (occurrences "-" "new-york-city" = 0 →
   label (classified "go" "locations" "new-york-city" Examples.sure) = "new-york-city") ∧
  occurrences "-" (label (classified "go" "locations" "new-york-city" Examples.sure)) = 1.
Proof.
  apply (X1_classification_fields "go" Examples.sure "new-york-city" "locations").
  reflexivity.
Defined.

Lemma elem_of_compact {A : Type} (x : A) (xs : list (option A)) :
  In x (Lodash.compact xs) ↔ In (Some x) xs.
Proof.
  unfold Lodash.compact.
  induction xs as [|[y|] xs IH]; simpl; [done| |].
  - rewrite IH. split; (intros [H|H]; [left; congruence | by right]).
  - rewrite IH. split; [by right | by intros [?|?]].
Qed.

Lemma In_collect_elim (classifiers : Classifiers) (text : string) (c : Classification) :
  In c (collect classifiers text) →
  ∃ topic labelled name classifier,
    In (topic, labelled) classifiers ∧
    In (name, classifier) labelled ∧
    verdict_label (classifier text) ≠ "false" ∧
    c = classified text topic name classifier.
Proof.
  unfold collect. rewrite in_concat.
  intros (l & Hl & Hc). apply in_map_iff in Hl as ([topic labelled] & <- & Hin).
  apply elem_of_compact, in_map_iff in Hc as ([name classifier] & Hcheck & Hin').
  apply checkUsingClassifier_some in Hcheck as [Hne ->].
  by exists topic, labelled, name, classifier.
Qed.

Lemma In_collect_intro (classifiers : Classifiers) (text topic name : string)
    (labelled : list (string * Classifier)) (classifier : Classifier) :
  In (topic, labelled) classifiers →
  In (name, classifier) labelled →
  verdict_label (classifier text) ≠ "false" →
  In (classified text topic name classifier) (collect classifiers text).
Proof.
  intros Hin Hin' Hne. unfold collect. rewrite in_concat.
  eexists. split.
  - apply in_map_iff. exists (topic, labelled). split; [reflexivity | done].
  - apply elem_of_compact, in_map_iff. exists (name, classifier). split; [|done].
    by apply checkUsingClassifier_some.
Qed.

(** X2.  The collection step yields exactly the classifications of the
    (topic, label) pairs of the bank whose classifier answers something other
    than ['false']: a pair answered ['false'] contributes nothing, whatever
    its confidence. *)
Theorem X2_collect_membership (classifiers : Classifiers) (text : string)
    (c : Classification) :
  In c (collect classifiers text) ↔
  ∃ topic labelled name classifier,
    In (topic, labelled) classifiers ∧
    In (name, classifier) labelled ∧
    verdict_label (classifier text) ≠ "false" ∧
    c = classified text topic name classifier.
Proof.
  split.
  - apply In_collect_elim.
  - intros (topic & labelled & name & classifier & Hin & Hin' & Hne & ->).
    by eapply In_collect_intro.
Qed.

Lemma X2_collect_membership_witness :
  In (classified "hi" "locations" "new-york" Examples.sure) (collect Examples.mixed "hi").
Proof.
  apply (X2_collect_membership Examples.mixed "hi").
  exists "locations", [("new-york", Examples.sure); ("rome", Examples.unsure)],
         "new-york", Examples.sure.
  split; [right; left; reflexivity|].
  split; [left; reflexivity|].
  split; [discriminate | reflexivity].
Defined.

(** ** Further properties: [baseBotTextNLP] *)

Lemma collect_nil (classifiers : Classifiers) (text : string) :
  collect classifiers text = [] ↔
  ∀ topic labelled name classifier,
    In (topic, labelled) classifiers → In (name, classifier) labelled →
    verdict_label (classifier text) = "false".
Proof.
  split.
  - intros Hnil topic labelled name classifier Hin Hin'.
    destruct (decide (verdict_label (classifier text) = "false")) as [|Hne]; [done|].
    assert (Hc : In (classified text topic name classifier) (collect classifiers text)).
    { by eapply In_collect_intro. }
    rewrite Hnil in Hc. destruct Hc.
  - intros Hall. destruct (collect classifiers text) as [|c l] eqn:E; [done|].
    assert (Hc : In c (collect classifiers text)) by (rewrite E; by left).
    apply In_collect_elim in Hc
      as (topic & labelled & name & classifier & Hin & Hin' & Hne & _).
    destruct Hne. by eapply Hall.
Qed.

Lemma renders_to_intent (found : list string) (kept : list Classification) :
  Forall2 renders (map (to_intent found) kept) kept.
Proof.
  induction kept as [|c kept IH]; simpl; constructor; [|exact IH].
  destruct (to_intent_fields found c) as (Ha & Ht & Hc & _). by repeat split.
Qed.

Lemma baseBotTextNLP_none (env : Imports) (classifiers : Classifiers) (text : string) :
  baseBotTextNLP env classifiers text = None ↔
  confidence_floor (classifier_is_LogisticRegression env) (collect classifiers text) = [].
Proof.
  unfold baseBotTextNLP.
  destruct (confidence_floor _ _); split; done.
Qed.

(** X3.  The built-in extractor never returns an empty array: its result is
    null or holds at least one intent.  When the classifier family is not
    the logistic-regression one, the result is null exactly when every
    classifier of the bank answers ['false'] for the text. *)
Theorem X3_null_or_nonempty (env : Imports) (classifiers : Classifiers) (text : string) :
  (∀ intents, baseBotTextNLP env classifiers text = Some intents → intents ≠ []) ∧
  (classifier_is_LogisticRegression env = false →
   (baseBotTextNLP env classifiers text = None ↔
    ∀ topic labelled name classifier,
      In (topic, labelled) classifiers → In (name, classifier) labelled →
      verdict_label (classifier text) = "false")).
Proof.
  split.
  - intros intents H Hnil. subst intents.
    pose proof (baseBotTextNLP_some _ _ _ _ H) as Hmap. simpl in Hmap.
    symmetry in Hmap. apply fmap_nil_inv in Hmap.
    assert (Hperm := orderBy_desc_Permutation cvalue
      (confidence_floor (classifier_is_LogisticRegression env) (collect classifiers text))).
    rewrite Hmap in Hperm. apply Permutation_nil in Hperm.
    apply baseBotTextNLP_none in Hperm. congruence.
  - intros Hlr. rewrite baseBotTextNLP_none, Hlr. simpl. apply collect_nil.
Qed.

Lemma X3_null_or_nonempty_witness :
  baseBotTextNLP (Examples.env false) [("greetings", [("bye", Examples.no)])] "hello" = None.
Proof.
  apply (X3_null_or_nonempty (Examples.env false) [("greetings", [("bye", Examples.no)])]
           "hello"); [reflexivity|].
  intros topic labelled name classifier Hbank Hin.
  simpl in Hbank. destruct Hbank as [Hbank|[]].
  injection Hbank as <- <-.
  simpl in Hin. destruct Hin as [Hin|[]].
  injection Hin as <- <-. reflexivity.
Defined.

(** X4.  The intents of the built-in extractor come best confidence first:
    they render, one for one and in order, the surviving classifications
    arranged by descending value, each with the label as its action, the
    topic as its topic and the value as its confidence. *)
Theorem X4_best_confidence_first (env : Imports) (classifiers : Classifiers)
    (text : string) (intents : list Intent) :
  baseBotTextNLP env classifiers text = Some intents →
  ∃ kept : list Classification,
    kept ≡ₚ confidence_floor (classifier_is_LogisticRegression env)
              (collect classifiers text) ∧
    StronglySorted by_confidence kept ∧
    Forall2 renders intents kept.
Proof.
  intros H. apply baseBotTextNLP_some in H. simpl in H.
  eexists. split; [apply orderBy_desc_Permutation|].
  split; [apply orderBy_desc_sorted|].
  subst intents. apply renders_to_intent.
Qed.

Lemma X4_best_confidence_first_witness :
  ∃ kept : list Classification,
    kept ≡ₚ collect Examples.mixed "hello from new york" ∧
    StronglySorted by_confidence kept ∧
    Forall2 renders
      (map (to_intent ["New York"; "Rome"])
           (Lodash.orderBy_desc cvalue (collect Examples.mixed "hello from new york")))
      kept.
Proof.
  apply (X4_best_confidence_first (Examples.env false) Examples.mixed "hello from new york").
  reflexivity.
Defined.

(** X5.  When the classifier family is not the logistic-regression one,
    nothing is dropped for its confidence: every collected classification,
    however low its value, is rendered by one of the intents, and there are
    as many intents as collected classifications. *)
Theorem X5_no_floor_without_logistic_regression (env : Imports)
    (classifiers : Classifiers) (text : string) (intents : list Intent) :
  classifier_is_LogisticRegression env = false →
  baseBotTextNLP env classifiers text = Some intents →
  length intents = length (collect classifiers text) ∧
  ∀ c, In c (collect classifiers text) → ∃ i, In i intents ∧ renders i c.
Proof.
  intros Hlr H. apply baseBotTextNLP_some in H. simpl in H.
  rewrite Hlr in H. simpl in H. subst intents. split.
  - by rewrite length_map, orderBy_desc_Permutation.
  - intros c Hc. eexists. split.
    + apply in_map. eapply Permutation_in; [|exact Hc].
      symmetry. apply orderBy_desc_Permutation.
    + destruct (to_intent_fields
        (locations_of (startCase env)
           (Lodash.orderBy_desc cvalue (collect classifiers text))) c) as (Ha & Ht & Hv & _).
      by repeat split.
Qed.

Lemma X5_no_floor_without_logistic_regression_witness :
  ∃ i, In i (map (to_intent ["New York"; "Rome"])
               (Lodash.orderBy_desc cvalue (collect Examples.mixed "hello")))
       ∧ renders i (classified "hello" "greetings" "hello" Examples.unsure).
Proof.
  apply (X5_no_floor_without_logistic_regression (Examples.env false) Examples.mixed
           "hello" _ eq_refl eq_refl).
  left. reflexivity.
Defined.

(** X6.  Every intent of the built-in extractor has an action and a topic
    that are not null and [details] that hold exactly the two keys
    [confidence] and [locations]. *)
Theorem X6_produced_intent_shape (env : Imports) (classifiers : Classifiers)
    (text : string) (intents : list Intent) :
  baseBotTextNLP env classifiers text = Some intents →
  Forall (λ i, is_Some (action i) ∧ is_Some (topic i) ∧
               ∃ d, details i = Some d ∧
                    ∀ k, is_Some (d !! k) ↔ k = "confidence" ∨ k = "locations")
         intents.
Proof.
  intros H. apply baseBotTextNLP_some in H. simpl in H. subst intents.
  apply Forall_fmap, List.Forall_forall. intros c _. simpl.
  unfold to_intent. destruct (is_location c); simpl;
    (split; [by eexists|]; split; [by eexists|]; eexists; split; [reflexivity|]);
    intros k; rewrite !lookup_insert, ?lookup_singleton;
    repeat case_decide; subst; split; intros Hk;
      try (by eexists); try (by left); try (by right);
      try (by destruct Hk); try (by destruct Hk as [?|?]).
Qed.

Lemma X6_produced_intent_shape_witness :
  Forall (λ i, is_Some (action i) ∧ is_Some (topic i) ∧
               ∃ d, details i = Some d ∧
                    ∀ k, is_Some (d !! k) ↔ k = "confidence" ∨ k = "locations")
         (map (to_intent ["New York"; "Rome"])
              (Lodash.orderBy_desc cvalue (collect Examples.mixed "hello"))).
Proof.
  apply (X6_produced_intent_shape (Examples.env false) Examples.mixed "hello").
  reflexivity.
Defined.

(** X7.  The shared [details.locations] is settled by the location
    classifications alone: it is the list obtained by arranging the
    surviving classifications of topic [locations] by descending value,
    those of equal value in the order of the bank, title-casing their labels
    and leaving out the empty strings; classifications of other topics have
    no part in it. *)
Theorem X7_locations_from_locations_alone (env : Imports) (classifiers : Classifiers)
    (text : string) (intents : list Intent) :
  baseBotTextNLP env classifiers text = Some intents →
  Forall (λ i, locations i =
               strings (List.filter nonblank
                 (map (λ c, startCase env (label c))
                    (Lodash.orderBy_desc cvalue
                       (List.filter is_location
                          (confidence_floor (classifier_is_LogisticRegression env)
                                            (collect classifiers text)))))))
         intents.
Proof.
  intros H. apply baseBotTextNLP_some in H. simpl in H. subst intents.
  apply Forall_fmap, List.Forall_forall. intros c _. simpl.
  rewrite <- orderBy_desc_filter, <- locations_of_filter.
  apply to_intent_fields.
Qed.

Lemma X7_locations_from_locations_alone_witness :
  Forall (λ i, locations i = strings ["Rome"; "New York"])
         (map (to_intent ["Rome"; "New York"])
              (Lodash.orderBy_desc cvalue (collect MoreExamples.tied "go"))).
Proof.
  apply (X7_locations_from_locations_alone (Examples.env false) MoreExamples.tied "go").
  reflexivity.
Defined.

(** ** Further properties: [defaultReducer] *)

Lemma compact_Some {A : Type} (xs : list A) : Lodash.compact (map Some xs) = xs.
Proof. unfold Lodash.compact. induction xs; simpl; by f_equal. Qed.

Lemma is_Some_assign_defaults (object source : gmap string value) (k : string) :
  is_Some (Lodash.assign_defaults object source !! k) ↔
  is_Some (object !! k) ∨ is_Some (source !! k).
Proof.
  rewrite lookup_assign_defaults. unfold get.
  destruct (object !! k) as [v|], (source !! k) as [w|]; simpl;
    try destruct (is_undefined v); split; intros H;
    try (by left); try (by right); try (by eexists);
    by destruct H as [[? [=]]|[? [=]]].
Qed.

Lemma is_Some_defaults (sources : list (option (gmap string value))) :
  ∀ (object : gmap string value) (k : string),
    is_Some (Lodash.defaults object sources !! k) ↔
    is_Some (object !! k) ∨ ∃ s, In (Some s) sources ∧ is_Some (s !! k).
Proof.
  induction sources as [|src sources IH]; intros object k; simpl.
  - split; [by left | by intros [?|(? & [] & _)]].
  - rewrite IH. destruct src as [s|].
    + rewrite is_Some_assign_defaults. split.
      * intros [[?|?]|(s' & Hin & Hk)]; [by left | right | right].
        -- exists s. split; [by left | done].
        -- exists s'. split; [by right | done].
      * intros [?|(s' & [[= ->]|Hin] & Hk)]; [by left; left | by left; right |].
        right. by exists s'.
    + split.
      * intros [?|(s' & Hin & Hk)]; [by left|]. right. exists s'. split; [by right | done].
      * intros [?|(s' & [[=]|Hin] & Hk)]; [by left|]. right. by exists s'.
Qed.

(** X8.  The default reducer ignores the null entries of its input.  Reducing
    again the result of a reduction of at least one candidate changes
    nothing; the unknown intent is no such fixed point: handed back to the
    reducer as the only candidate, it comes out with empty [details]. *)
Theorem X8_defaultReducer_again (intents : list (option Intent)) :
  defaultReducer intents = defaultReducer (map Some (Lodash.compact intents)) ∧
  (∀ result, Lodash.compact intents ≠ [] →
             defaultReducer intents = Resolved result →
             defaultReducer [Some result] = Resolved result) ∧
  defaultReducer [Some unknownIntent] = Resolved (set_details unknownIntent (Some ∅)).
Proof.
  split; [|split; [|reflexivity]].
  - unfold defaultReducer. by rewrite compact_Some.
  - intros result Hne H.
    destruct (Lodash.compact intents) as [|winner others] eqn:E; [done|].
    rewrite (defaultReducer_nonempty _ _ _ E) in H. by injection H as <-.
Qed.

Lemma X8_defaultReducer_again_witness :
  defaultReducer
    [Some (set_details Examples.greeting
             (Some (Lodash.defaults (default ∅ (details Examples.greeting))
                                    [details Examples.paris])))]
  = Resolved (set_details Examples.greeting
                (Some (Lodash.defaults (default ∅ (details Examples.greeting))
                                       [details Examples.paris]))).
Proof.
  apply (X8_defaultReducer_again [Some Examples.greeting; None; Some Examples.paris]);
    [discriminate | reflexivity].
Defined.

(** X9.  After a reduction of at least one candidate the result always has
    [details], and their keys are exactly the keys held by the [details] of
    some candidate; when no candidate has [details], the result has the
    empty map, not undefined. *)
Theorem X9_merged_keys (intents : list (option Intent)) (winner : Intent)
    (others : list Intent) :
  Lodash.compact intents = winner :: others →
  ∃ result merged,
    defaultReducer intents = Resolved result ∧
    details result = Some merged ∧
    (∀ k, is_Some (merged !! k) ↔ ∃ i, In i (winner :: others) ∧ holds k i) ∧
    (Forall (λ i, details i = None) (winner :: others) → merged = ∅).
Proof.
  intros H. rewrite (defaultReducer_nonempty _ _ _ H).
  eexists. eexists. split; [reflexivity|]. split; [reflexivity|].
  assert (Hkeys : ∀ k,
    is_Some (Lodash.defaults (default ∅ (details winner)) (map details others) !! k) ↔
    ∃ i, In i (winner :: others) ∧ holds k i).
  { intros k. rewrite is_Some_defaults. unfold holds. split.
    - intros [Hw|(s & Hin & Hk)].
      + exists winner. split; [by left|].
        destruct (details winner) as [d|]; simpl in Hw; [by exists d|].
        rewrite lookup_empty in Hw. by destruct Hw.
      + apply in_map_iff in Hin as (i & Hd & Hin).
        exists i. split; [by right | by exists s].
    - intros (i & [<-|Hin] & d & Hd & Hk).
      + left. by rewrite Hd.
      + right. exists d. split; [|done]. apply in_map_iff. by exists i. }
  split; [exact Hkeys|].
  intros Hnone. apply map_empty. intros k.
  apply eq_None_not_Some. intros Hk. apply Hkeys in Hk as (i & Hin & d & Hd & _).
  rewrite List.Forall_forall in Hnone. specialize (Hnone i Hin). congruence.
Qed.

Lemma X9_merged_keys_witness :
  ∃ result merged,
    defaultReducer [Some MoreExamples.bare] = Resolved result ∧
    details result = Some merged ∧
    (∀ k, is_Some (merged !! k) ↔ ∃ i, In i [MoreExamples.bare] ∧ holds k i) ∧
    (Forall (λ i, details i = None) [MoreExamples.bare] → merged = ∅).
Proof.
  apply (X9_merged_keys [Some MoreExamples.bare] MoreExamples.bare []). reflexivity.
Defined.

(** ** Further properties: [processText] and the registration methods *)

Lemma Promise_map_resolved {A B : Type} (f : A → Promise B) (xs : list A) :
  ∀ bs, Promise_map f xs = Resolved bs ↔ Forall2 (λ x b, f x = Resolved b) xs bs.
Proof.
  induction xs as [|x xs IH]; intros bs; simpl.
  - split; [intros [= <-]; constructor | by inversion 1].
  - destruct (f x) as [b|e] eqn:Hx.
    + destruct (Promise_map f xs) as [bs'|e] eqn:Hxs.
      * split.
        -- intros [= <-]. constructor; [done | by apply IH].
        -- inversion 1 as [|? b' ? bs'' Hb Hrest]; subst.
           apply IH in Hrest. congruence.
      * split; [done|].
        inversion 1 as [|? b' ? bs'' Hb Hrest]; subst. by apply IH in Hrest.
    + split; [done|]. inversion 1; congruence.
Qed.

Lemma Promise_map_rejected {A B : Type} (f : A → Promise B) (xs : list A) (x : A)
    (reason : value) :
  In x xs → f x = Rejected reason → ∃ reason', Promise_map f xs = Rejected reason'.
Proof.
  induction xs as [|y xs IH]; simpl; [done|].
  intros [->|Hin] Hx.
  - rewrite Hx. by eexists.
  - destruct (IH Hin Hx) as [e He]. rewrite He.
    destruct (f y); by eexists.
Qed.

Lemma settle_resolved (chain : list SkillFunction) (i : nat) (user user' : User) :
  settle (dispatch chain i user) = Resolved user' →
  user' = snd (dispatch chain i user) ∧
  Forall (λ e, ∀ reason, snd e ≠ Fails reason) (fst (dispatch chain i user)).
Proof.
  intros H. split.
  - unfold settle in H.
    destruct (last _) as [[? []]|]; by simplify_eq.
  - apply Forall_lookup. intros j e He reason Hfail.
    assert (Hlen : length (fst (dispatch chain i user)) = S j).
    { eapply dispatch_stops; [exact He|]. rewrite Hfail. discriminate. }
    unfold settle in H. rewrite last_lookup, Hlen in H. simpl in H.
    rewrite He in H. destruct e as [n r]. simpl in Hfail. subst r. discriminate.
Qed.

Lemma dispatch_discreet (chain : list SkillFunction) :
  Forall discreet chain →
  ∀ (i : nat) (user : User),
    conversation (snd (dispatch chain i user)) = conversation user.
Proof.
  induction 1 as [|skill later Hskill _ IH]; intros i user; simpl; [done|].
  specialize (Hskill user).
  destruct (skill user) as [user' result]. simpl in *.
  destruct result; simpl; try done.
  specialize (IH (S i) user').
  destruct (dispatch later (S i) user') as [events user'']. simpl in *. congruence.
Qed.

Lemma processText_resolved (this : ChatBot) (user : User) (text : string) (user' : User) :
  processText this user text = Resolved user' →
  ∃ found decided,
    candidates this (heard user text) text = Resolved found ∧
    reducer this found (heard user text) = Resolved decided ∧
    settle (dispatch (skills this) 0 (set_intent (heard user text) decided))
      = Resolved user'.
Proof.
  unfold processText.
  destruct (candidates _ _ _) as [found|] eqn:Hfound; [|done].
  destruct (reducer _ _ _) as [decided|] eqn:Hred; [|done].
  intros H. by exists found, decided.
Qed.

(** X10.  [processText] fails as soon as one intent function fails; when it
    resolves, every intent function and the reducer have resolved, no
    invoked skill has failed, and the user it resolves with is the one the
    walk of the skills left, starting from the user that heard the text and
    carries the reducer's decision. *)
Theorem X10_processText_outcome (this : ChatBot) (user : User) (text : string) :
  (∀ intent reason,
      In intent (intents this) →
      intent (classifiers this) text (heard user text) = Rejected reason →
      ∃ reason', processText this user text = Rejected reason') ∧
  (∀ user',
      processText this user text = Resolved user' →
      ∃ results decided,
        Forall2 (λ (intent : IntentFunction) r,
                   intent (classifiers this) text (heard user text) = Resolved r)
                (intents this) results ∧
        reducer this (map Some (Lodash.compact (Lodash.flatten results))) (heard user text)
          = Resolved decided ∧
        user' = snd (dispatch (skills this) 0 (set_intent (heard user text) decided)) ∧
        Forall (λ e, ∀ reason, snd e ≠ Fails reason)
               (fst (dispatch (skills this) 0 (set_intent (heard user text) decided)))).
Proof.
  split.
  - intros intent reason Hin Hrej. unfold processText, candidates.
    destruct (Promise_map_rejected
                (λ f : IntentFunction, f (classifiers this) text (heard user text))
                (intents this) intent reason Hin Hrej) as [e He].
    rewrite He. by eexists.
  - intros user' H.
    apply processText_resolved in H as (found & decided & Hfound & Hred & Hsettle).
    unfold candidates in Hfound.
    destruct (Promise_map _ _) as [results|] eqn:Hmap; [|done].
    injection Hfound as <-.
    apply Promise_map_resolved in Hmap.
    apply settle_resolved in Hsettle as [-> Hok].
    by exists results, decided.
Qed.

Lemma X10_processText_outcome_witness :
  ∃ reason', processText (unshiftIntent MoreExamples.broken Examples.bot)
               Examples.visitor "hi" = Rejected reason'.
Proof.
  apply (X10_processText_outcome (unshiftIntent MoreExamples.broken Examples.bot)
           Examples.visitor "hi") with (intent := MoreExamples.broken) (reason := VStr "down").
  - left. reflexivity.
  - reflexivity.
Defined.

(** X11.  With skills that do not reassign [user.conversation], a resolved
    [processText] leaves the conversation extended by the text (an absent
    conversation counting as empty), so that two calls in a row append both
    texts in the order of the calls. *)
Theorem X11_conversation_accumulates (this : ChatBot) (user user1 user2 : User)
    (text1 text2 : string) :
  Forall discreet (skills this) →
  processText this user text1 = Resolved user1 →
  processText this user1 text2 = Resolved user2 →
  conversation user1 = Some (default [] (conversation user) ++ [text1]) ∧
  conversation user2 = Some (default [] (conversation user) ++ [text1; text2]).
Proof.
  intros Hskills H1 H2.
  assert (Hone : ∀ u t u', processText this u t = Resolved u' →
            conversation u' = Some (default [] (conversation u) ++ [t])).
  { intros u t u' H.
    apply processText_resolved in H as (found & decided & _ & _ & Hsettle).
    apply settle_resolved in Hsettle as [-> _].
    rewrite (dispatch_discreet _ Hskills). unfold heard. simpl.
    destruct (conversation u) as [c|] eqn:E; simpl; by rewrite ?E. }
  pose proof (Hone _ _ _ H1) as Hc1. pose proof (Hone _ _ _ H2) as Hc2.
  split; [exact Hc1|]. rewrite Hc2, Hc1. simpl. by rewrite <- app_assoc.
Qed.

Lemma X11_conversation_accumulates_witness :
  ∃ user1 user2,
    processText (unshiftSkill Examples.tag Examples.bot) Examples.visitor "hi"
      = Resolved user1 ∧
    processText (unshiftSkill Examples.tag Examples.bot) user1 "bye" = Resolved user2 ∧
    conversation user1 = Some ["hi"] ∧
    conversation user2 = Some ["hi"; "bye"].
Proof.
  eexists. eexists. split; [reflexivity|]. split; [reflexivity|].
  apply (X11_conversation_accumulates (unshiftSkill Examples.tag Examples.bot)
           Examples.visitor _ _ "hi" "bye"); [|reflexivity..].
  constructor; [|constructor]. intros u. reflexivity.
Defined.

Lemma dispatch_shift (chain : list SkillFunction) : ∀ (i : nat) (user : User),
  dispatch chain (S i) user =
    (map (λ e, (S (fst e), snd e)) (fst (dispatch chain i user)),
     snd (dispatch chain i user)).
Proof.
  induction chain as [|skill later IH]; intros i user; simpl; [done|].
  destruct (skill user) as [user' result].
  destruct result; try done.
  rewrite (IH (S i) user').
  by destruct (dispatch later (S i) user') as [events user''].
Qed.

(** X12.  A skill added with [unshiftSkill] is consulted before all the
    others: when it hands back something other than null on the user, it is
    the only skill invoked and the walk ends with the user it left; when it
    hands back null, the walk goes on as the walk of the earlier skills
    would, one index further, on the user it left. *)
Theorem X12_new_skill_runs_first (newSkill : SkillFunction) (this : ChatBot) (user : User) :
  (snd (newSkill user) ≠ ReturnsNull →
   dispatch (skills (unshiftSkill newSkill this)) 0 user
   = ([(0, snd (newSkill user))], fst (newSkill user))) ∧
  (snd (newSkill user) = ReturnsNull →
   dispatch (skills (unshiftSkill newSkill this)) 0 user
   = ((0, ReturnsNull)
        :: map (λ e, (S (fst e), snd e))
               (fst (dispatch (skills this) 0 (fst (newSkill user)))),
      snd (dispatch (skills this) 0 (fst (newSkill user))))).
Proof.
  simpl. destruct (newSkill user) as [user' result]. simpl. split.
  - intros Hne. by destruct result.
  - intros ->. rewrite dispatch_shift. reflexivity.
Qed.

Lemma X12_new_skill_runs_first_witness :
  dispatch (skills (unshiftSkill MoreExamples.take
                      (unshiftSkill Examples.tag Examples.bot))) 0 Examples.visitor
  = ([(0, ReturnsNonNull)], fst (MoreExamples.take Examples.visitor)).
Proof.
  apply (X12_new_skill_runs_first MoreExamples.take
           (unshiftSkill Examples.tag Examples.bot) Examples.visitor).
  discriminate.
Defined.

Lemma dispatch_handed (chain : list SkillFunction) : ∀ (i : nat) (user : User),
  snd (dispatch chain i user) = handed chain (length (fst (dispatch chain i user))) user.
Proof.
  induction chain as [|skill later IH]; intros i user; simpl; [done|].
  destruct (skill user) as [user' result] eqn:Hs.
  destruct result; simpl; rewrite ?Hs; try (by destruct later).
  specialize (IH (S i) user').
  by destruct (dispatch later (S i) user') as [events user''].
Qed.

Lemma dispatch_take (chain : list SkillFunction) :
  ∀ (i : nat) (user : User) (behind : list SkillFunction),
    length (fst (dispatch chain i user)) < length chain →
    dispatch (take (length (fst (dispatch chain i user))) chain ++ behind) i user
    = dispatch chain i user.
Proof.
  induction chain as [|skill later IH]; intros i user behind; simpl; [lia|].
  destruct (skill user) as [user' result] eqn:Hs.
  destruct result; simpl; rewrite ?Hs; try done.
  specialize (IH (S i) user' behind).
  destruct (dispatch later (S i) user') as [events user''] eqn:Hd. simpl in *.
  intros Hlt. rewrite Hs, IH by lia. reflexivity.
Qed.

(** X13.  The user that the walk of the skills returns is the user as the
    invoked skills left it, one after the other; it does not depend on the
    skills behind the one at which the walk stopped. *)
Theorem X13_walk_result (chain : list SkillFunction) (user : User) :
  let n := length (fst (dispatch chain 0 user)) in
  snd (dispatch chain 0 user) = handed chain n user ∧
  ∀ behind : list SkillFunction,
    n < length chain →
    dispatch (take n chain ++ behind) 0 user = dispatch chain 0 user.
Proof.
  intros n. split; [apply dispatch_handed|].
  intros behind Hn. by apply dispatch_take.
Qed.

Lemma X13_walk_result_witness :
  dispatch ([Examples.tag; MoreExamples.take] ++ [Examples.decline]) 0 Examples.visitor
  = dispatch [Examples.tag; MoreExamples.take; Examples.accept; Examples.tag]
             0 Examples.visitor.
Proof.
  apply (X13_walk_result [Examples.tag; MoreExamples.take; Examples.accept; Examples.tag]
           Examples.visitor).
  simpl. lia.
Defined.

Lemma candidates_unshiftIntent (newIntent : IntentFunction) (this : ChatBot)
    (user : User) (text : string) (r : Extracted) (found : list (option Intent)) :
  newIntent (classifiers this) text user = Resolved r →
  candidates this user text = Resolved found →
  candidates (unshiftIntent newIntent this) user text
  = Resolved (map Some (Lodash.compact (Lodash.flatten [r])) ++ found).
Proof.
  unfold candidates. simpl. intros ->.
  destruct (Promise_map _ _) as [results|]; [|done].
  intros [= <-]. f_equal.
  unfold Lodash.flatten, Lodash.compact. simpl.
  rewrite app_nil_r, omap_app. by rewrite map_app.
Qed.

(** X14.  An intent function added with [unshiftIntent] is asked first and
    its candidates come first: when it resolves, the candidate list of the
    bot is what it found, nulls dropped, followed by the candidates the bot
    had before; when it rejects, the candidate list is rejected, and with
    its reason when the intent functions the bot had before all resolve. *)
Theorem X14_new_intent_function_first (newIntent : IntentFunction) (this : ChatBot)
    (user : User) (text : string) :
  (∀ r found,
      newIntent (classifiers this) text user = Resolved r →
      candidates this user text = Resolved found →
      candidates (unshiftIntent newIntent this) user text
      = Resolved (map Some (Lodash.compact (Lodash.flatten [r])) ++ found)) ∧
  (∀ reason,
      newIntent (classifiers this) text user = Rejected reason →
      ∃ reason', candidates (unshiftIntent newIntent this) user text = Rejected reason') ∧
  (∀ reason found,
      newIntent (classifiers this) text user = Rejected reason →
      candidates this user text = Resolved found →
      candidates (unshiftIntent newIntent this) user text = Rejected reason).
Proof.
  split; [|split].
  - intros r found. apply candidates_unshiftIntent.
  - intros reason H. unfold candidates. simpl. rewrite H. by eexists.
  - intros reason found H _. unfold candidates. simpl. by rewrite H.
Qed.

Lemma X14_new_intent_function_first_witness :
  candidates (unshiftIntent MoreExamples.recognise_booking Examples.bot)
             Examples.visitor "two seats"
  = Resolved [Some MoreExamples.booking] ∧
  candidates (unshiftIntent MoreExamples.broken Examples.bot) Examples.visitor "hi"
  = Rejected (VStr "down").
Proof.
  destruct (X14_new_intent_function_first MoreExamples.recognise_booking Examples.bot
              Examples.visitor "two seats") as (Hfirst & _ & _).
  destruct (X14_new_intent_function_first MoreExamples.broken Examples.bot
              Examples.visitor "hi") as (_ & _ & Hdown).
  split.
  - apply (Hfirst (Lodash.One (Some MoreExamples.booking)) []); reflexivity.
  - apply (Hdown (VStr "down") []); reflexivity.
Defined.

(** X15.  Under the default reducer, an intent function added with
    [unshiftIntent] that resolves with a single intent decides: when the
    other intent functions resolve and the skills neither fail nor reassign
    [user.intent], [processText] resolves with a [user.intent] that has the
    action and the topic of that intent and keeps every key its [details]
    hold with a value other than undefined. *)
Theorem X15_new_intent_function_decides (newIntent : IntentFunction) (this : ChatBot)
    (user : User) (text : string) (i : Intent) (found : list (option Intent)) :
  reducer this = defaultReducer_bound →
  newIntent (classifiers this) text (heard user text) = Resolved (Lodash.One (Some i)) →
  candidates this (heard user text) text = Resolved found →
  Forall inert (skills this) →
  ∃ user' merged,
    processText (unshiftIntent newIntent this) user text = Resolved user' ∧
    action (intent user') = action i ∧
    topic (intent user') = topic i ∧
    details (intent user') = Some merged ∧
    ∀ d k v, details i = Some d → d !! k = Some v → is_undefined v = false →
             merged !! k = Some v.
Proof.
  intros Hred Hnew Hfound Hinert.
  pose proof (candidates_unshiftIntent _ _ _ _ _ _ Hnew Hfound) as Hcand.
  simpl in Hcand.
  set (decided := set_details i
         (Some (Lodash.defaults (default ∅ (details i))
                                (map details (Lodash.compact found))))).
  assert (Hdec : reducer (unshiftIntent newIntent this) (Some i :: found) (heard user text)
                 = Resolved decided).
  { simpl. rewrite Hred. unfold defaultReducer_bound.
    by apply defaultReducer_nonempty. }
  pose proof (processText_walk (unshiftIntent newIntent this) user text _ _ Hcand Hdec)
    as Hrun.
  simpl in Hrun.
  destruct (dispatch_inert _ Hinert 0 (set_intent (heard user text) decided))
    as [Hsettle Hkeep].
  eexists. eexists. split; [by rewrite Hrun, Hsettle|].
  rewrite Hkeep. simpl. repeat split.
  intros d k v Hd Hk Hv. rewrite defaults_defined; rewrite Hd; simpl; [done|].
  unfold get. by rewrite Hk.
Qed.

Lemma X15_new_intent_function_decides_witness :
  ∃ user' merged,
    processText (unshiftIntent MoreExamples.recognise_booking Examples.bot)
                Examples.visitor "two seats" = Resolved user' ∧
    action (intent user') = Some "book" ∧
    topic (intent user') = Some "travel" ∧
    details (intent user') = Some merged ∧
    ∀ d k v, details MoreExamples.booking = Some d → d !! k = Some v →
             is_undefined v = false → merged !! k = Some v.
Proof.
  apply (X15_new_intent_function_decides MoreExamples.recognise_booking Examples.bot
           Examples.visitor "two seats" MoreExamples.booking []);
    [reflexivity | reflexivity | reflexivity | constructor].
Defined.

(** X17.  Retraining replaces the bank wholesale: retraining a bot as the
    constructor built it gives the very bot that the constructor builds from
    the new files, and a successful retraining makes any retraining done
    before it irrelevant. *)
Theorem X17_retrain_is_rebuild (env : Imports) (classifierFiles : list ClassifierFile) :
  (∀ earlierFiles built fresh,
      constructor env earlierFiles = Some built →
      constructor env classifierFiles = Some fresh →
      retrainClassifiers env classifierFiles built = fresh) ∧
  (∀ bank earlierFiles this,
      GenerateClassifier env (classifierFiles ++ defaultClassifierDirectories env)
        = Some bank →
      retrainClassifiers env classifierFiles
        (retrainClassifiers env earlierFiles this)
      = retrainClassifiers env classifierFiles this).
Proof.
  split.
  - intros earlierFiles built fresh. unfold constructor, retrainClassifiers.
    destruct (GenerateClassifier env (earlierFiles ++ _)) as [bank0|]; [|done].
    destruct (GenerateClassifier env (classifierFiles ++ _)) as [bank|]; [|done].
    by intros [= <-] [= <-].
  - intros bank earlierFiles this Hbank. unfold retrainClassifiers. rewrite Hbank.
    by destruct (GenerateClassifier env (earlierFiles ++ _)).
Qed.

Lemma X17_retrain_is_rebuild_witness :
  retrainClassifiers MoreExamples.trained [FilePath "more"]
    (retrainClassifiers MoreExamples.trained [] Examples.bot)
  = retrainClassifiers MoreExamples.trained [FilePath "more"] Examples.bot.
Proof.
  apply (X17_retrain_is_rebuild MoreExamples.trained [FilePath "more"]
         : _ ∧ _) with (bank := Examples.mixed).
  reflexivity.
Defined.

(** X18.  [createEmptyUser] without defaults gives the base record; the base
    record is part of every user it creates; and feeding a created user back
    as the defaults gives that user again. *)
Theorem X18_createEmptyUser_again (defaults : gmap string value) :
  createEmptyUser ∅ = anEmptyUser ∧
  anEmptyUser ⊆ createEmptyUser defaults ∧
  createEmptyUser (createEmptyUser defaults) = createEmptyUser defaults.
Proof.
  split; [|split].
  - apply map_eq. intros k. rewrite lookup_createEmptyUser, lookup_empty.
    by destruct (anEmptyUser !! k).
  - apply map_subseteq_spec. intros k v Hk.
    by rewrite lookup_createEmptyUser, Hk.
  - apply map_eq. intros k. rewrite !lookup_createEmptyUser.
    by destruct (anEmptyUser !! k).
Qed.

(** ** Further properties: the built-in extractor under the default reducer *)

Lemma to_intent_details (found : list string) (c : Classification) :
  ∃ d, details (to_intent found c) = Some d ∧
       d !! "confidence" = Some (VNum (cvalue c)) ∧
       d !! "locations" = Some (strings found) ∧
       ∀ k, k ≠ "confidence" → k ≠ "locations" → d !! k = None.
Proof.
  unfold to_intent. destruct (is_location c); simpl; eexists;
    (split; [reflexivity|]); (split; [by simplify_map_eq|]);
    (split; [by simplify_map_eq|]); intros k H1 H2; by simplify_map_eq.
Qed.

(** The intents of one extraction round have nothing to lend each other. *)
Lemma defaults_to_intent (found : list string) (c : Classification)
    (others : list Classification) (d : gmap string value) :
  details (to_intent found c) = Some d →
  Lodash.defaults d (map details (map (to_intent found) others)) = d.
Proof.
  intros Hd.
  destruct (to_intent_details found c) as (d' & Hd' & Hconf & Hloc & Hnone).
  assert (d' = d) as -> by congruence.
  apply map_eq. intros k.
  destruct (decide (k = "confidence")) as [->|Hc].
  { apply defaults_defined. unfold get. by rewrite Hconf. }
  destruct (decide (k = "locations")) as [->|Hl].
  { apply defaults_defined. unfold get. by rewrite Hloc. }
  rewrite (Hnone k Hc Hl). apply defaults_absent; [by apply Hnone|].
  apply List.Forall_forall. intros src Hsrc s ->.
  apply in_map_iff in Hsrc as (i & Hi & Hin).
  apply in_map_iff in Hin as (c' & <- & _).
  destruct (to_intent_details found c') as (d'' & Hd'' & _ & _ & Hnone').
  assert (d'' = s) as -> by congruence. by apply Hnone'.
Qed.

Lemma set_details_same (i : Intent) : set_details i (details i) = i.
Proof. by destruct i. Qed.

Lemma builtin_alone (env : Imports) (classifiers : Classifiers) (text : string)
    (intents : list Intent) :
  baseBotTextNLP env classifiers text = Some intents →
  ∃ best c,
    head intents = Some best ∧
    defaultReducer (map Some intents) = Resolved best ∧
    renders best c ∧
    In c (confidence_floor (classifier_is_LogisticRegression env)
            (collect classifiers text)) ∧
    ∀ c', In c' (confidence_floor (classifier_is_LogisticRegression env)
                   (collect classifiers text)) →
          (cvalue c' <= cvalue c)%Q.
Proof.
  intros H. pose proof (baseBotTextNLP_some _ _ _ _ H) as Hmap. simpl in Hmap.
  set (survivors := confidence_floor _ _) in *.
  pose proof (orderBy_desc_Permutation cvalue survivors) as Hperm.
  pose proof (orderBy_desc_sorted cvalue survivors) as Hsorted.
  set (found := locations_of _ _) in Hmap.
  destruct (Lodash.orderBy_desc cvalue survivors) as [|c kept] eqn:E.
  { apply Permutation_nil in Hperm. apply baseBotTextNLP_none in Hperm. congruence. }
  subst intents. simpl. exists (to_intent found c), c.
  split; [done|]. split; [|split; [|split]].
  - destruct (to_intent_details found c) as (d & Hd & _).
    erewrite defaultReducer_nonempty; [|simpl; by rewrite compact_Some].
    rewrite Hd. simpl. rewrite (defaults_to_intent found c kept d Hd).
    rewrite <- Hd. by rewrite set_details_same.
  - destruct (to_intent_fields found c) as (Ha & Ht & Hv & _). by repeat split.
  - eapply Permutation_in; [exact Hperm | by left].
  - intros c' Hc'. apply (Permutation_in _ (Permutation_sym Hperm)) in Hc'.
    inversion Hsorted as [|? ? _ Hall]; subst.
    destruct Hc' as [<-|Hc']; [apply Qle_refl|].
    rewrite List.Forall_forall in Hall. by apply Hall.
Qed.

(** X19.  When the built-in extractor is the only source of candidates, the
    default reducer resolves with its first intent exactly as produced: the
    merge adds nothing, and that intent renders a surviving classification
    of the highest value. *)
Theorem X19_builtin_best_unchanged (env : Imports) (classifiers : Classifiers)
    (text : string) (intents : list Intent) :
  baseBotTextNLP env classifiers text = Some intents →
  ∃ best c,
    head intents = Some best ∧
    defaultReducer (map Some intents) = Resolved best ∧
    renders best c ∧
    In c (confidence_floor (classifier_is_LogisticRegression env)
            (collect classifiers text)) ∧
    ∀ c', In c' (confidence_floor (classifier_is_LogisticRegression env)
                   (collect classifiers text)) →
          (cvalue c' <= cvalue c)%Q.
Proof. intros H. destruct (builtin_alone _ _ _ _ H) as (best & c & Hall). eauto. Qed.

Lemma X19_builtin_best_unchanged_witness :
  ∃ best c,
    head (map (to_intent ["New York"; "Rome"])
              (Lodash.orderBy_desc cvalue (collect Examples.mixed "hello"))) = Some best ∧
    defaultReducer
      (map Some (map (to_intent ["New York"; "Rome"])
                     (Lodash.orderBy_desc cvalue (collect Examples.mixed "hello"))))
      = Resolved best ∧
    renders best c ∧
    In c (collect Examples.mixed "hello") ∧
    ∀ c', In c' (collect Examples.mixed "hello") → (cvalue c' <= cvalue c)%Q.
Proof.
  apply (X19_builtin_best_unchanged (Examples.env false) Examples.mixed "hello").
  reflexivity.
Defined.

(** X20.  End to end on a bot as the constructor builds it: when [grabTopics]
    finds nothing and the built-in extractor finds intents, [processText]
    resolves with [user.intent] equal to the first of them, which renders a
    surviving classification of the highest value. *)
Theorem X20_new_bot_best_intent (env : Imports) (classifierFiles : list ClassifierFile)
    (bot : ChatBot) (user : User) (text : string) (intents : list Intent) :
  constructor env classifierFiles = Some bot →
  grabTopics env (classifiers bot) text (heard user text) = Resolved (Lodash.One None) →
  baseBotTextNLP env (classifiers bot) text = Some intents →
  ∃ best c,
    processText bot user text = Resolved (set_intent (heard user text) best) ∧
    head intents = Some best ∧
    renders best c ∧
    ∀ c', In c' (confidence_floor (classifier_is_LogisticRegression env)
                   (collect (classifiers bot) text)) →
          (cvalue c' <= cvalue c)%Q.
Proof.
  intros Hbot Hgrab Hfound.
  destruct (builtin_alone _ _ _ _ Hfound) as (best & c & Hhead & Hred & Hrender & _ & Hmax).
  exists best, c. split; [|done].
  unfold constructor in Hbot.
  destruct (GenerateClassifier env _) as [bank|]; [|done].
  injection Hbot as <-. simpl in *.
  unfold processText, candidates. simpl.
  unfold baseBotTextNLP_bound at 1. rewrite Hfound, Hgrab.
  unfold Lodash.flatten. simpl.
  replace (Lodash.compact (map Some intents ++ [None])) with intents.
  - unfold defaultReducer_bound. by rewrite Hred.
  - unfold Lodash.compact. rewrite omap_app. simpl. rewrite app_nil_r.
    symmetry. apply compact_Some.
Qed.

Lemma X20_new_bot_best_intent_witness :
  ∃ best c,
    processText {| classifiers := Examples.mixed;
                   intents := [baseBotTextNLP_bound MoreExamples.trained;
                               grabTopics MoreExamples.trained];
                   skills := [];
                   reducer := defaultReducer_bound;
                   debugOn := false |} Examples.visitor "hello"
      = Resolved (set_intent (heard Examples.visitor "hello") best) ∧
    head (map (to_intent ["New York"; "Rome"])
              (Lodash.orderBy_desc cvalue (collect Examples.mixed "hello"))) = Some best ∧
    renders best c ∧
    ∀ c', In c' (collect Examples.mixed "hello") → (cvalue c' <= cvalue c)%Q.
Proof.
  apply (X20_new_bot_best_intent MoreExamples.trained []); reflexivity.
Defined.
